(** * The spaced-repetition scheduler of vocabulary-master-pwa

    A shallow embedding of [src/services/spacedRepetition.ts]
    ([SpacedRepetitionService]) and of the properties its specification
    states about it.

    ** Modelling conventions

    - A JavaScript [number] that is stored in a card or passed as an argument
      is a finite number and is modelled by an exact rational ([Q]): cards
      are persisted with [JSON.stringify], which cannot represent [NaN] or an
      infinity.  Arithmetic is exact; the rounding error of IEEE-754 doubles
      and signed zeros are not modelled.  The two can differ in the last
      place, which decides a result only at a rounding tie or at a
      threshold.
    - Where the source divides by a computed value the quotient may be
      [Infinity] or [NaN]; those functions compute in [number], the
      rationals extended with the non-finite values, with JavaScript's rules.
    - A [Date] is its time value, the count of milliseconds since the epoch
      ([Z]).  [setDate] and [setHours] work on the local date and time of
      day: the local time zone is part of the environment, given by its two
      offset functions, and may change its offset (daylight saving).  The
      bound of representable dates (8.64e15 ms either side of the epoch) is
      not modelled: where the source finds a date beyond it, and
      [toISOString] throws a [RangeError], the model goes on with the
      unbounded date.  An ISO timestamp string is identified with the
      instant it denotes.
    - [new Date()] and [Math.random()] are the only effects of the service
      (the store also writes to [localStorage], which may fail).  Every reading
      the source takes is an explicit argument, in the order of the calls, so
      that nothing is assumed about two readings being equal.
    - [Math.pow] is the real power function, so the priority score is a real
      number ([R]). [Math.log10] is left abstract. *)

From Stdlib Require Import ZArith QArith Qround Qminmax Qabs Qpower.
From Stdlib Require Import Bool List String Psatz.
From Stdlib Require Import Reals Qreals.
From Stdlib Require Import Permutation Sorted.
Import ListNotations.

Local Open Scope Z_scope.
Local Open Scope Q_scope.

(** ** JavaScript primitives on finite numbers *)

Module JS.

(** [x < y], [x >= y] and [x === y] on numbers. *)
Definition lt (x y : Q) : bool := negb (Qle_bool y x).
Definition gt (x y : Q) : bool := lt y x.
Definition ge (x y : Q) : bool := Qle_bool y x.
Definition strict_eq (x y : Q) : bool := Qeq_bool x y.

(** [Math.round]: the nearest integer, a tie going towards +infinity. *)
Definition Math_round (x : Q) : Z := Qfloor (x + (1 # 2)).
Definition Math_floor (x : Q) : Z := Qfloor x.
Definition Math_ceil (x : Q) : Z := Qceiling x.

Definition Math_max (x y : Q) : Q := Qmax x y.
Definition Math_min (x y : Q) : Q := Qmin x y.

(** [parseFloat(x.toFixed(2))].  [toFixed] prints the sign apart and picks
    for the magnitude the integer [n] with [n / 100] closest to it, the
    larger one on a tie; [parseFloat] reads the decimal back.  (The
    exponent form [toFixed] switches to from 1e21 on is left out.) *)
Definition toFixed2 (x : Q) : Q :=
  if lt x 0
  then - (inject_Z (Qfloor (- x * 100 + (1 # 2))) / 100)
  else inject_Z (Qfloor (x * 100 + (1 # 2))) / 100.

End JS.

(** ** Data model ([src/types/vocabulary.ts]) *)

Inductive Difficulty := beginner | intermediate | advanced | master.

(** A timestamp string: the instant it denotes, [None] for an empty or
    missing one (the only case the source tests for). *)
Definition IsoString := option Z.

Record VocabularyWord := {
  id : string;
  word : string;
  definition : string;
  translation : option string;
  phonetic : option string;
  audioUrl : option string;
  difficulty : Difficulty;
  category : option string;
  tags : option (list string);
  customTags : option (list string);
  examples : list string;
  synonyms : option (list string);
  antonyms : option (list string);
  usageNotes : option (list string);
  interval : Q;
  easeFactor : Q;
  reviewCount : Q;
  masteryScore : Q;
  nextReviewAt : IsoString;
  lastReviewedAt : IsoString;
  createdAt : IsoString;
  modifiedAt : option IsoString;
  personalNote : option string;
  favorite : option bool;
  difficultyOverride : option Q;
  confidenceLevel : option Q
}.

(** [Omit<VocabularyWord, 'interval' | 'easeFactor' | 'reviewCount' |
    'masteryScore' | 'nextReviewAt' | 'lastReviewedAt'>]: the fields that are
    not scheduling state. *)
Record WordData := {
  d_id : string;
  d_word : string;
  d_definition : string;
  d_translation : option string;
  d_phonetic : option string;
  d_audioUrl : option string;
  d_difficulty : Difficulty;
  d_category : option string;
  d_tags : option (list string);
  d_customTags : option (list string);
  d_examples : list string;
  d_synonyms : option (list string);
  d_antonyms : option (list string);
  d_usageNotes : option (list string);
  d_createdAt : IsoString;
  d_modifiedAt : option IsoString;
  d_personalNote : option string;
  d_favorite : option bool;
  d_difficultyOverride : option Q;
  d_confidenceLevel : option Q
}.

(** [Pick<VocabularyWord, 'interval' | 'easeFactor' | 'reviewCount' |
    'masteryScore' | 'nextReviewAt' | 'lastReviewedAt'>]: the scheduling
    state [calculateNextReview] returns. *)
Record Scheduling := {
  s_interval : Q;
  s_easeFactor : Q;
  s_reviewCount : Q;
  s_masteryScore : Q;
  s_nextReviewAt : IsoString;
  s_lastReviewedAt : IsoString
}.

(** The non-scheduling part of a card. *)
Definition wordData (c : VocabularyWord) : WordData :=
  {| d_id := id c; d_word := word c; d_definition := definition c;
     d_translation := translation c; d_phonetic := phonetic c;
     d_audioUrl := audioUrl c; d_difficulty := difficulty c;
     d_category := category c; d_tags := tags c;
     d_customTags := customTags c; d_examples := examples c;
     d_synonyms := synonyms c; d_antonyms := antonyms c;
     d_usageNotes := usageNotes c; d_createdAt := createdAt c;
     d_modifiedAt := modifiedAt c; d_personalNote := personalNote c;
     d_favorite := favorite c;
     d_difficultyOverride := difficultyOverride c;
     d_confidenceLevel := confidenceLevel c |}.

(** The scheduling part of a card. *)
Definition scheduling (c : VocabularyWord) : Scheduling :=
  {| s_interval := interval c; s_easeFactor := easeFactor c;
     s_reviewCount := reviewCount c; s_masteryScore := masteryScore c;
     s_nextReviewAt := nextReviewAt c;
     s_lastReviewedAt := lastReviewedAt c |}.

(** The object literal [{ ...d, ...s }]: a card from its two parts. *)
Definition spread (d : WordData) (s : Scheduling) : VocabularyWord :=
  {| id := d_id d; word := d_word d; definition := d_definition d;
     translation := d_translation d; phonetic := d_phonetic d;
     audioUrl := d_audioUrl d; difficulty := d_difficulty d;
     category := d_category d; tags := d_tags d;
     customTags := d_customTags d; examples := d_examples d;
     synonyms := d_synonyms d; antonyms := d_antonyms d;
     usageNotes := d_usageNotes d;
     interval := s_interval s; easeFactor := s_easeFactor s;
     reviewCount := s_reviewCount s; masteryScore := s_masteryScore s;
     nextReviewAt := s_nextReviewAt s;
     lastReviewedAt := s_lastReviewedAt s;
     createdAt := d_createdAt d; modifiedAt := d_modifiedAt d;
     personalNote := d_personalNote d; favorite := d_favorite d;
     difficultyOverride := d_difficultyOverride d;
     confidenceLevel := d_confidenceLevel d |}.

(** [{ ...card, ...update }], the way the store merges the returned fields
    into the reviewed card ([submitAnswer]). *)
Definition merge (card : VocabularyWord) (update : Scheduling) : VocabularyWord :=
  spread (wordData card) update.

(** ** Thrown errors and results *)

Inductive Error :=
  | QualityOutOfRange   (* 'Quality rating must be between 0 and 5' *)
  | MasteryOutOfRange.  (* 'Mastery score must be between 0 and 100' *)

Inductive result (A : Type) :=
  | Ok (a : A)
  | Throw (e : Error).
Arguments Ok {A} a.
Arguments Throw {A} e.

(** ** The scheduler *)

Definition MIN_EASE_FACTOR : Q := 1.3.
Definition MAX_EASE_FACTOR : Q := 2.5.
Definition INITIAL_EASE_FACTOR : Q := 2.5.
Definition MASTERY_INCREMENT : Q := 20.

(** Milliseconds in a day, [1000 * 60 * 60 * 24]. *)
Definition DAY : Z := (1000 * 60 * 60 * 24)%Z.

Definition HOUR : Z := (1000 * 60 * 60)%Z.

(** The local time zone as ECMAScript sees it, [LocalTZA(t, isUTC)]: the
    offset of local time from UTC, in milliseconds, at the UTC instant [t]
    ([offsetAtUTC]) and at the local time value [t] ([offsetAtLocal]; at a
    local time that a change of offset skips or repeats the implementation
    takes the offset from before the change).  Nothing is assumed of the two
    functions. *)
Record TimeZone := {
  offsetAtUTC : Z -> Z;
  offsetAtLocal : Z -> Z
}.

(** [LocalTime(t)] and [UTC(t)] of ECMAScript. *)
Definition LocalTime (zone : TimeZone) (t : Z) : Z :=
  (t + offsetAtUTC zone t)%Z.

Definition UTC (zone : TimeZone) (t : Z) : Z :=
  (t - offsetAtLocal zone t)%Z.

(** [d.setDate(d.getDate() + k)] for a whole number of days [k]: the local
    date moves by [k] days, the local time of day stays, and the result is
    read back as a UTC instant.  ([MakeDay] of the year, the month and the
    day of the month plus [k] is the day number of the local time plus
    [k].) *)
Definition addDays (zone : TimeZone) (d : Z) (k : Z) : Z :=
  UTC zone (LocalTime zone d + k * DAY)%Z.

(** A zone whose offset never changes. *)
Definition fixedZone (offset : Z) : TimeZone :=
  {| offsetAtUTC := fun _ => offset; offsetAtLocal := fun _ => offset |}.

Definition calculateEaseFactorChange (quality : Q) : Q :=
  if JS.strict_eq quality 5 then 0.15
  else if JS.strict_eq quality 4 then 0.10
  else if JS.strict_eq quality 3 then 0.05
  else if JS.strict_eq quality 2 then - 0.15
  else if JS.strict_eq quality 1 then - 0.25
  else if JS.strict_eq quality 0 then - 0.30
  else 0.

Definition clampEaseFactor (easeFactor : Q) : Q :=
  JS.Math_max MIN_EASE_FACTOR (JS.Math_min MAX_EASE_FACTOR easeFactor).

Definition calculateMasteryIncrement (quality currentMastery : Q) : Q :=
  if JS.lt quality 3 then
    let penaltyMultiplier := JS.Math_max 0.3 (1 - currentMastery / 100) in
    - MASTERY_INCREMENT * penaltyMultiplier
  else
    let increment := MASTERY_INCREMENT * (quality / 5) in
    let difficultyFactor := 1 - (currentMastery / 100) * 0.7 in
    increment * difficultyFactor.

(** The jitter of [calculateNextReviewDate], from the sample [rnd] that
    [Math.random()] returned. *)
Definition randomVariation (rnd : Q) : Q := rnd * 0.2 - 0.1.

Definition variationDays (intervalDays : Z) (rnd : Q) : Z :=
  JS.Math_round (inject_Z intervalDays * randomVariation rnd).

Definition finalVariation (intervalDays : Z) (rnd : Q) : Z :=
  let v := variationDays intervalDays rnd in
  let maxVariation := Z.min (Z.abs v) 1 in
  if (0 <=? v)%Z then maxVariation else (- maxVariation)%Z.

(** [calculateNextReviewDate(intervalDays)].  [now0] is the reading of the
    [new Date()] that makes [baseDate], [now1] the later one that makes
    [tomorrow].  [intervalDays] is [newInterval], a whole number at the only
    call site. *)
Definition calculateNextReviewDate
    (zone : TimeZone) (now0 : Z) (rnd : Q) (now1 : Z) (intervalDays : Z) : Z :=
  let baseDate := addDays zone now0 intervalDays in
  let baseDate := addDays zone baseDate (finalVariation intervalDays rnd) in
  let tomorrow := addDays zone now1 1 in
  if (baseDate <? tomorrow)%Z then tomorrow else baseDate.

(** What one call of [calculateNextReview] reads from its environment: the
    local time zone, and the clock and the random source in the order of
    the reads. *)
Record Env := {
  time_zone : TimeZone;
  now_base : Z;       (* [new Date()] for [baseDate] *)
  random : Q;         (* [Math.random()] *)
  now_tomorrow : Z;   (* [new Date()] for [tomorrow] *)
  now_reviewed : Z    (* [new Date()] for [lastReviewedAt] *)
}.

(** [calculateNextReview(currentCard, quality)].  [Ok] stands for the fields
    computed once both checks have passed; the source then writes the two
    dates with [toISOString], which the model takes to succeed (see the
    conventions on the range of dates). *)
Definition calculateNextReview
    (env : Env) (card : VocabularyWord) (quality : Q) : result Scheduling :=
  if JS.lt quality 0 || JS.gt quality 5 then Throw QualityOutOfRange
  else if JS.lt (masteryScore card) 0 || JS.gt (masteryScore card) 100
  then Throw MasteryOutOfRange
  else
    let currentCard := card in
    let '(newInterval, newReviewCount) :=
      if JS.lt quality 3 then (1%Z, 0)
      else
        (if JS.strict_eq (reviewCount currentCard) 0 then 1%Z
         else if JS.strict_eq (reviewCount currentCard) 1 then 6%Z
         else JS.Math_round (interval currentCard * easeFactor currentCard),
         reviewCount currentCard + 1) in
    let easeFactorChange := calculateEaseFactorChange quality in
    let newEaseFactor := easeFactor currentCard + easeFactorChange in
    let newEaseFactor := clampEaseFactor newEaseFactor in
    let masteryIncrement :=
      calculateMasteryIncrement quality (masteryScore currentCard) in
    let newMasteryScore :=
      JS.Math_min 100
        (JS.Math_max 0 (masteryScore currentCard + masteryIncrement)) in
    let nextReviewAt :=
      calculateNextReviewDate (time_zone env) (now_base env) (random env)
        (now_tomorrow env) newInterval in
    Ok {| s_interval := inject_Z newInterval;
          s_easeFactor := JS.toFixed2 newEaseFactor;
          s_reviewCount := newReviewCount;
          s_masteryScore := inject_Z (JS.Math_round newMasteryScore);
          s_nextReviewAt := Some nextReviewAt;
          s_lastReviewedAt := Some (now_reviewed env) |}.

(** The locals of [calculateNextReview], as functions of its arguments. *)
Definition newInterval (card : VocabularyWord) (quality : Q) : Z :=
  if JS.lt quality 3 then 1%Z
  else if JS.strict_eq (reviewCount card) 0 then 1%Z
  else if JS.strict_eq (reviewCount card) 1 then 6%Z
  else JS.Math_round (interval card * easeFactor card).

Definition newReviewCount (card : VocabularyWord) (quality : Q) : Q :=
  if JS.lt quality 3 then 0 else reviewCount card + 1.

Definition newEaseFactor (card : VocabularyWord) (quality : Q) : Q :=
  clampEaseFactor (easeFactor card + calculateEaseFactorChange quality).

Definition newMasteryScore (card : VocabularyWord) (quality : Q) : Q :=
  JS.Math_min 100
    (JS.Math_max 0
       (masteryScore card
        + calculateMasteryIncrement quality (masteryScore card))).

(** The object a successful call returns, in terms of those. *)
Definition reviewed
    (env : Env) (card : VocabularyWord) (quality : Q) : Scheduling :=
  {| s_interval := inject_Z (newInterval card quality);
     s_easeFactor := JS.toFixed2 (newEaseFactor card quality);
     s_reviewCount := newReviewCount card quality;
     s_masteryScore :=
       inject_Z (JS.Math_round (newMasteryScore card quality));
     s_nextReviewAt :=
       Some (calculateNextReviewDate (time_zone env) (now_base env)
               (random env) (now_tomorrow env) (newInterval card quality));
     s_lastReviewedAt := Some (now_reviewed env) |}.

(** One review as the store performs it: the returned fields are merged into
    the card ([submitAnswer]). *)
Definition review
    (env : Env) (card : VocabularyWord) (quality : Q) : result VocabularyWord :=
  match calculateNextReview env card quality with
  | Ok update => Ok (merge card update)
  | Throw e => Throw e
  end.

(** The initial scheduling state.  [now0] and [now1] are the readings of the
    two [new Date()] in the object literal. *)
Definition initialScheduling (now0 now1 : Z) : Scheduling :=
  {| s_interval := 1;
     s_easeFactor := INITIAL_EASE_FACTOR;
     s_reviewCount := 0;
     s_masteryScore := 0;
     s_nextReviewAt := Some now0;
     s_lastReviewedAt := Some now1 |}.

Definition initializeCard (now0 now1 : Z) (card : WordData) : VocabularyWord :=
  spread card (initialScheduling now0 now1).

Definition resetCardProgress
    (now0 now1 : Z) (card : VocabularyWord) : VocabularyWord :=
  spread (wordData card) (initialScheduling now0 now1).

(** ** Numbers that may be non-finite *)

Inductive number :=
  | Finite (q : Q)
  | PosInfinity
  | NegInfinity
  | NaN.

Module Num.

Definition add (x y : number) : number :=
  match x, y with
  | NaN, _ | _, NaN => NaN
  | Finite a, Finite b => Finite (a + b)
  | PosInfinity, NegInfinity | NegInfinity, PosInfinity => NaN
  | PosInfinity, _ | _, PosInfinity => PosInfinity
  | NegInfinity, _ | _, NegInfinity => NegInfinity
  end.

(** An infinity times a finite factor. *)
Definition scaleInf (pos : bool) (a : Q) : number :=
  if Qeq_bool a 0 then NaN
  else if xorb pos (JS.lt a 0) then PosInfinity else NegInfinity.

Definition mul (x y : number) : number :=
  match x, y with
  | NaN, _ | _, NaN => NaN
  | Finite a, Finite b => Finite (a * b)
  | PosInfinity, Finite a | Finite a, PosInfinity => scaleInf true a
  | NegInfinity, Finite a | Finite a, NegInfinity => scaleInf false a
  | PosInfinity, PosInfinity | NegInfinity, NegInfinity => PosInfinity
  | PosInfinity, NegInfinity | NegInfinity, PosInfinity => NegInfinity
  end.

(** Division.  A zero divisor is the positive zero. *)
Definition div (x y : number) : number :=
  match x, y with
  | NaN, _ | _, NaN => NaN
  | Finite a, Finite b =>
      if Qeq_bool b 0 then
        if Qeq_bool a 0 then NaN
        else if JS.lt a 0 then NegInfinity else PosInfinity
      else Finite (a / b)
  | Finite _, _ => Finite 0
  | PosInfinity, Finite b => if JS.lt b 0 then NegInfinity else PosInfinity
  | NegInfinity, Finite b => if JS.lt b 0 then PosInfinity else NegInfinity
  | _, _ => NaN
  end.

(** Lifts a rounding function, which leaves a non-finite value as it is. *)
Definition rounding (f : Q -> Z) (x : number) : number :=
  match x with
  | Finite a => Finite (inject_Z (f a))
  | _ => x
  end.

Definition Math_floor : number -> number := rounding JS.Math_floor.
Definition Math_ceil : number -> number := rounding JS.Math_ceil.
Definition Math_round : number -> number := rounding JS.Math_round.

Definition Math_max (x y : number) : number :=
  match x, y with
  | NaN, _ | _, NaN => NaN
  | PosInfinity, _ | _, PosInfinity => PosInfinity
  | NegInfinity, z | z, NegInfinity => z
  | Finite a, Finite b => Finite (JS.Math_max a b)
  end.

Definition Math_min (x y : number) : number :=
  match x, y with
  | NaN, _ | _, NaN => NaN
  | NegInfinity, _ | _, NegInfinity => NegInfinity
  | PosInfinity, z | z, PosInfinity => z
  | Finite a, Finite b => Finite (JS.Math_min a b)
  end.

(** [x || d] on a finite number: [0] is the falsy one. *)
Definition or_else (x d : Q) : Q := if Qeq_bool x 0 then d else x.

(** A finite whole number between [lo] and [hi]. *)
Definition integer_between (lo hi : Z) (x : number) : Prop :=
  exists n : Z, x = Finite (inject_Z n) /\ (lo <= n <= hi)%Z.

Definition is_finite (x : number) : Prop := exists q : Q, x = Finite q.

End Num.

(** ** Estimation helpers *)

Record Estimate := { days : number; reviews : number }.

Definition estimateTimeToMastery
    (currentMastery averageAccuracy reviewsPerDay : Q) : Estimate :=
  if JS.ge currentMastery 95 then
    {| days := Finite 0; reviews := Finite 0 |}
  else
    let pointsNeeded := 100 - currentMastery in
    let averageGainPerReview := (averageAccuracy / 100) * 15 in
    let diminishingFactor := 1 - (currentMastery / 100) * 0.5 in
    let reviewsNeeded :=
      Num.Math_ceil
        (Num.div (Finite pointsNeeded)
           (Finite (averageGainPerReview * diminishingFactor))) in
    let daysNeeded :=
      Num.Math_ceil (Num.div reviewsNeeded (Finite reviewsPerDay)) in
    {| days := daysNeeded; reviews := reviewsNeeded |}.

Section DailyGoal.

(** [Math.log10], whose value ECMAScript leaves to the implementation. *)
Variable Math_log10 : Q -> number.

Definition calculateDailyGoal
    (totalWords dueWords averageStudyTime availableTime averageAccuracy : Q)
    : number :=
  if JS.strict_eq totalWords 0 then Finite 20
  else
    let baseGoal := JS.Math_min dueWords 50 in
    let timeBasedGoal :=
      Num.Math_floor
        (Num.div (Finite (availableTime * 60))
           (Finite (Num.or_else averageStudyTime 30))) in
    let performanceMultiplier := 0.5 + (averageAccuracy / 100) * 0.5 in
    let totalWordsFactor :=
      Num.Math_min (Math_log10 (totalWords + 1)) (Finite 2) in
    Num.Math_min
      (Num.Math_max
         (Finite 10)
         (Num.Math_round
            (Num.mul
               (Num.add
                  (Num.add (Finite (baseGoal * 0.4))
                     (Num.mul timeBasedGoal (Finite 0.3)))
                  (Num.mul totalWordsFactor (Finite 15)))
               (Finite performanceMultiplier))))
      (Finite 100).

End DailyGoal.

(** ** Review priority *)

Section Priority.

Local Open Scope R_scope.

(** [now] is the reading of the [new Date()] of [getReviewPriority]. *)
Variable now : Z.

(** The locals of [getReviewPriority], as functions of the card. *)
Definition daysOverdue (card : VocabularyWord) : R :=
  match nextReviewAt card with
  | Some t => Rmax 0 (IZR (now - t) / (1000 * 60 * 60 * 24))
  | None => 0
  end.

Definition overdueWeight (card : VocabularyWord) : R :=
  Rpower (daysOverdue card + 1) 1.5.

Definition masteryWeight (card : VocabularyWord) : R :=
  (100 - Q2R (masteryScore card)) / 100.

(** The table lookup; each entry is truthy, so the [|| 1.0] fallback is
    never taken for a label of the type. *)
Definition difficultyWeight (card : VocabularyWord) : R :=
  match difficulty card with
  | beginner => 0.8
  | intermediate => 1.0
  | advanced => 1.2
  | master => 1.5
  end.

Definition recencyPenalty (card : VocabularyWord) : R :=
  if JS.strict_eq (reviewCount card) 0 then 0.5 else 1.0.

Definition getReviewPriority (card : VocabularyWord) : R :=
  let daysOverdue :=
    match nextReviewAt card with
    | Some t => Rmax 0 (IZR (now - t) / (1000 * 60 * 60 * 24))
    | None => 0
    end in
  let overdueWeight := Rpower (daysOverdue + 1) 1.5 in
  let masteryWeight := (100 - Q2R (masteryScore card)) / 100 in
  let difficultyWeight :=
    match difficulty card with
    | beginner => 0.8
    | intermediate => 1.0
    | advanced => 1.2
    | master => 1.5
    end in
  let recencyPenalty :=
    if JS.strict_eq (reviewCount card) 0 then 0.5 else 1.0 in
  (overdueWeight * 2 + masteryWeight * 3) * difficultyWeight * recencyPenalty.

End Priority.

(** ** The vocabulary of the specification *)

(** The invariants of a card (section 3 of the specification). *)
Definition validCard (card : VocabularyWord) : Prop :=
  1.3 <= easeFactor card <= 2.5
  /\ 0 <= masteryScore card <= 100
  /\ 1 <= interval card.

(** [quality] is one of the six ratings. *)
Definition integerRating (quality : Q) : Prop :=
  exists n : Z, quality == inject_Z n /\ (0 <= n <= 5)%Z.

(** The mastery delta in the specification's words (section 4.1): on a
    failure the penalty [-20 * max(0.3, 1 - masteryScore/100)], on a success
    the gain [20 * (quality/5) * (1 - (masteryScore/100) * 0.7)]. *)
Definition spec_masteryDelta (quality masteryScore : Q) : Q :=
  if Qlt_le_dec quality 3 then
    let remaining := 1 - masteryScore / 100 in
    - 20 * (if Qlt_le_dec remaining 0.3 then 0.3 else remaining)
  else
    20 * (quality / 5) * (1 - (masteryScore / 100) * 0.7).

(** "Clamp result to [0, 100]". *)
Definition spec_clamp (x : Q) : Q :=
  if Qlt_le_dec x 0 then 0 else if Qlt_le_dec 100 x then 100 else x.

(** The mastery the specification asks for, before rounding. *)
Definition spec_mastery (quality masteryScore : Q) : Q :=
  spec_clamp (masteryScore + spec_masteryDelta quality masteryScore).

(** [n] is a whole number nearest to [x]. *)
Definition nearest_integer (x : Q) (n : Z) : Prop :=
  Qabs (inject_Z n - x) <= 1 # 2.

(** ** Inputs to evaluate the functions on *)

(** A concrete card and environment to evaluate the functions on. *)
Definition sampleData : WordData :=
  {| d_id := "1"; d_word := "ephemeral"; d_definition := "short-lived";
     d_translation := None; d_phonetic := None; d_audioUrl := None;
     d_difficulty := intermediate; d_category := None; d_tags := None;
     d_customTags := None; d_examples := []; d_synonyms := None;
     d_antonyms := None; d_usageNotes := None; d_createdAt := Some 0%Z;
     d_modifiedAt := None; d_personalNote := None; d_favorite := None;
     d_difficultyOverride := None; d_confidenceLevel := None |}.

Definition sampleScheduling : Scheduling :=
  {| s_interval := 6; s_easeFactor := 2.5; s_reviewCount := 2;
     s_masteryScore := 40; s_nextReviewAt := Some 0%Z;
     s_lastReviewedAt := Some 0%Z |}.

Definition sampleCard : VocabularyWord := spread sampleData sampleScheduling.

Definition sampleEnv : Env :=
  {| time_zone := fixedZone 0; now_base := 1000; random := 1 # 2;
     now_tomorrow := 1000; now_reviewed := 1000 |}.

(** A zone that puts its clocks forward by an hour at the instant [change],
    from the offset [standard]. *)
Definition springForward (standard change : Z) : TimeZone :=
  {| offsetAtUTC := fun t =>
       if (t <? change)%Z then standard else (standard + HOUR)%Z;
     offsetAtLocal := fun t =>
       if (t <? change + standard + HOUR)%Z then standard
       else (standard + HOUR)%Z |}.

(** Central European time around its change to summer time on 31 March
    2024, 01:00 UTC. *)
Definition centralEurope2024 : TimeZone := springForward HOUR 1711846800000.

(** A review at 12:00 UTC on 30 March 2024 in that zone, the clock standing
    still during the call. *)
Definition dstEnv : Env :=
  {| time_zone := centralEurope2024; now_base := 1711800000000;
     random := 1 # 2; now_tomorrow := 1711800000000;
     now_reviewed := 1711800000000 |}.

(** Two cards that differ only in when they fell due. *)
Definition cardDueAt (t : Z) : VocabularyWord :=
  spread sampleData
    {| s_interval := 6; s_easeFactor := 2.5; s_reviewCount := 2;
       s_masteryScore := 40; s_nextReviewAt := Some t;
       s_lastReviewedAt := Some 0%Z |}.

(** A stand-in for [Math.log10] to evaluate the goal with: the number of
    binary digits scaled by log10(2), to five decimals. *)
Definition roughLog10 (x : Q) : number :=
  if JS.lt 0 x then Finite (inject_Z (Z.log2 (Qfloor x)) * 0.30103)
  else if JS.strict_eq x 0 then NegInfinity else NaN.

(** * Further code of the service and of its callers *)

(** ** Runs of reviews *)

(** The store reviews a card again and again ([submitAnswer]); each answer
    comes with the environment its call reads.  The run stops at the first
    call that throws. *)
Fixpoint reviewRun
    (card : VocabularyWord) (answers : list (Env * Q)) : result VocabularyWord :=
  match answers with
  | [] => Ok card
  | (env, quality) :: rest =>
      match review env card quality with
      | Ok next => reviewRun next rest
      | Throw e => Throw e
      end
  end.

(** ** The summary of due cards *)

(** [Array.prototype.sort] with a comparator that returns a number.  The
    sort of ECMAScript is stable, and for a consistent comparator that fixes
    the result: it is the one a stable insertion sort builds.  An element
    goes behind another exactly when the comparator is positive on them. *)
Fixpoint insertSorted {A : Type}
    (compare : A -> A -> R) (x : A) (sorted : list A) : list A :=
  match sorted with
  | [] => [x]
  | y :: rest =>
      if Rlt_dec 0 (compare x y) then y :: insertSorted compare x rest
      else x :: sorted
  end.

Definition Array_sort {A : Type}
    (compare : A -> A -> R) (items : list A) : list A :=
  fold_right (insertSorted compare) [] items.

(** [new Date(s) <= t]: an invalid date compares false. *)
Definition dateLe (s : IsoString) (t : Z) : bool :=
  match s with
  | Some d => (d <=? t)%Z
  | None => false
  end.

(** [d.setHours(23, 59, 59, 999)] on a date at instant [now]: the last
    millisecond of the local day, read back as a UTC instant. *)
Definition endOfLocalDay (zone : TimeZone) (now : Z) : Z :=
  let t := LocalTime zone now in
  UTC zone (t - t mod DAY + (DAY - 1))%Z.

Record DueSummary := {
  dueNow : Z;
  dueToday : Z;
  dueThisWeek : Z;
  priorityQueue : list VocabularyWord
}.

(** [cards.map(card => ({ card, priority: getReviewPriority(card) }))]: the
    call for the card at position [k] reads the clock as [clock k]. *)
Fixpoint withPriority
    (clock : nat -> Z) (k : nat) (cards : list VocabularyWord)
    : list (VocabularyWord * R) :=
  match cards with
  | [] => []
  | card :: rest =>
      (card, getReviewPriority (clock k) card)
      :: withPriority clock (S k) rest
  end.

(** One round of the [forEach] that counts. *)
Definition countDue
    (now endOfDay endOfWeek : Z) (counts : Z * Z * Z)
    (entry : VocabularyWord * R) : Z * Z * Z :=
  let '(dueNow, dueToday, dueThisWeek) := counts in
  let nextReview := nextReviewAt (fst entry) in
  ((if dateLe nextReview now then dueNow + 1 else dueNow)%Z,
   (if dateLe nextReview endOfDay then dueToday + 1 else dueToday)%Z,
   (if dateLe nextReview endOfWeek then dueThisWeek + 1 else dueThisWeek)%Z).

(** [getDueCardsSummary(cards)].  [now] is the reading of its own
    [new Date()], taken before the priorities are computed. *)
Definition getDueCardsSummary
    (zone : TimeZone) (now : Z) (clock : nat -> Z)
    (cards : list VocabularyWord) : DueSummary :=
  let endOfDay := endOfLocalDay zone now in
  let endOfWeek := addDays zone now 7 in
  let cardsWithPriority := withPriority clock 0 cards in
  let cardsWithPriority :=
    Array_sort (fun a b => (snd b - snd a)%R) cardsWithPriority in
  let '(dueNow, dueToday, dueThisWeek) :=
    fold_left (countDue now endOfDay endOfWeek) cardsWithPriority
      (0, 0, 0)%Z in
  {| dueNow := dueNow;
     dueToday := dueToday;
     dueThisWeek := dueThisWeek;
     priorityQueue := map fst cardsWithPriority |}.

(** ** The adaptive schedule *)

Record PerformanceEntry := {
  date : Z;
  accuracy : Q;          (* 0-100 *)
  responseTime : Q;      (* milliseconds *)
  entryDifficulty : string
}.

(** [items.reduce((acc, x, index) => f(acc, x, index), init)]. *)
Fixpoint reduceFrom {A B : Type}
    (f : B -> A -> nat -> B) (index : nat) (items : list A) (acc : B) : B :=
  match items with
  | [] => acc
  | x :: rest => reduceFrom f (S index) rest (f acc x index)
  end.

Definition Array_reduce {A B : Type}
    (f : B -> A -> nat -> B) (init : B) (items : list A) : B :=
  reduceFrom f 0 items init.

(** [items.slice(-k)]: the last [k] items, all of them when there are
    fewer. *)
Definition sliceLast {A : Type} (k : nat) (items : list A) : list A :=
  skipn (List.length items - k) items.

(** [Math.pow(0.9, length - index - 1)], a whole power. *)
Definition decayWeight (length index : nat) : Q :=
  0.9 ^ Z.of_nat (length - index - 1).

(** The locals of [calculateOptimalReviewSchedule].  Both divisors are
    positive when the history is not empty, the only case they are computed
    in. *)
Definition weightedAccuracy (performanceHistory : list PerformanceEntry) : Q :=
  let length := List.length performanceHistory in
  Array_reduce
    (fun sum entry index => sum + accuracy entry * decayWeight length index)
    0 performanceHistory
  / Array_reduce (fun sum _ index => sum + decayWeight length index)
      0 performanceHistory.

Definition avgResponseTime (performanceHistory : list PerformanceEntry) : Q :=
  let recentResponseTimes :=
    map responseTime (sliceLast 5 performanceHistory) in
  if (0 <? List.length recentResponseTimes)%nat
  then Array_reduce (fun a b _ => a + b) 0 recentResponseTimes
       / inject_Z (Z.of_nat (List.length recentResponseTimes))
  else 3000.

(** [calculateConsistency(accuracies)]; the square root makes it a real
    number. *)
Definition calculateConsistency (accuracies : list Q) : R :=
  if (List.length accuracies <? 2)%nat then 0.5%R
  else
    let mean :=
      (Array_reduce (fun a b _ => a + Q2R b) 0 accuracies
       / INR (List.length accuracies))%R in
    let variance :=
      (Array_reduce (fun a b _ => a + (Q2R b - mean) ^ 2) 0 accuracies
       / INR (List.length accuracies))%R in
    let stdDev := sqrt variance in
    Rmax 0 (1 - stdDev / 50).

(** [parseFloat(x.toFixed(2))] on a real number. *)
Definition R_toFixed2 (x : R) : R :=
  if Rlt_dec x 0
  then (- (IZR (Int_part (- x * 100 + / 2)) / 100))%R
  else (IZR (Int_part (x * 100 + / 2)) / 100)%R.

Record ReviewSchedule := { nextInterval : Z; confidence : R }.

Definition calculateOptimalReviewSchedule
    (performanceHistory : list PerformanceEntry) (currentCard : VocabularyWord)
    : ReviewSchedule :=
  if (List.length performanceHistory =? 0)%nat
  then {| nextInterval := 1; confidence := 0.5 |}
  else
    let weightedAccuracy := weightedAccuracy performanceHistory in
    let avgResponseTime := avgResponseTime performanceHistory in
    let optimalInterval :=
      if JS.gt weightedAccuracy 90 && JS.lt avgResponseTime 2000
      then JS.Math_round (interval currentCard * 2.5)
      else if JS.gt weightedAccuracy 80
      then JS.Math_round (interval currentCard * 2)
      else if JS.gt weightedAccuracy 70
      then JS.Math_round (interval currentCard * 1.5)
      else if JS.gt weightedAccuracy 60
      then JS.Math_round (interval currentCard * 1.2)
      else JS.Math_round (interval currentCard * 1.1) in
    let optimalInterval := Z.max 1 (Z.min 365 optimalInterval) in
    let consistencyScore :=
      calculateConsistency (map accuracy performanceHistory) in
    let confidence :=
      Rmin 1
        (Q2R weightedAccuracy / 100 * 0.6
         + consistencyScore * 0.3
         + (if JS.lt avgResponseTime 5000 then 0.1 else 0))%R in
    {| nextInterval := optimalInterval;
       confidence := R_toFixed2 confidence |}.

(** A history of three study days to evaluate the schedule on. *)
Definition sampleHistory : list PerformanceEntry :=
  [ {| date := 0; accuracy := 85; responseTime := 2500;
       entryDifficulty := "medium" |};
    {| date := 86400000; accuracy := 90; responseTime := 1800;
       entryDifficulty := "medium" |};
    {| date := 172800000; accuracy := 95; responseTime := 1500;
       entryDifficulty := "medium" |} ].

(** ** The store ([src/store/index.ts]) *)

(** [state.sessionStats].  The counters start at 0 and move by whole steps,
    so they are integers. *)
Record SessionStats := {
  cardsReviewed : Z;
  correctAnswers : Z;
  startTime : option Z;
  currentStreak : Z;
  longestStreak : Z
}.

(** [Partial<RootState['sessionStats']>]: an absent field is [None]. *)
Record PartialSessionStats := {
  p_cardsReviewed : option Z;
  p_correctAnswers : option Z;
  p_startTime : option (option Z);
  p_currentStreak : option Z;
  p_longestStreak : option Z
}.

(** The part of [RootState] that a study session reads and writes.  The
    study history, the filter, the loading flag and the preferences are left
    out: no mutation or action below touches them. *)
Record RootState := {
  words : list VocabularyWord;
  currentCard : option VocabularyWord;
  error : option string;
  sessionStats : SessionStats
}.

Definition initialState : RootState :=
  {| words := [];
     currentCard := None;
     error := None;
     sessionStats :=
       {| cardsReviewed := 0; correctAnswers := 0; startTime := None;
          currentStreak := 0; longestStreak := 0 |} |}.

(** [items.findIndex(p)]: the first position where [p] holds, -1 when there
    is none. *)
Fixpoint findIndexFrom {A : Type}
    (p : A -> bool) (index : Z) (items : list A) : Z :=
  match items with
  | [] => (-1)%Z
  | x :: rest => if p x then index else findIndexFrom p (index + 1)%Z rest
  end.

Definition findIndex {A : Type} (p : A -> bool) (items : list A) : Z :=
  findIndexFrom p 0%Z items.

(** [items.splice(index, 1, x)] for an [index] that is not negative: the
    item at [index], if there is one, gives way to [x]. *)
Definition splice1 {A : Type} (items : list A) (index : Z) (x : A) : list A :=
  firstn (Z.to_nat index) items ++ x :: skipn (S (Z.to_nat index)) items.

(** [items[index] || null] for an array of objects. *)
Definition itemAt {A : Type} (items : list A) (index : Z) : option A :=
  if (index <? 0)%Z then None else nth_error items (Z.to_nat index).

(** The mutations. *)
Definition SET_WORDS (state : RootState) (newWords : list VocabularyWord)
    : RootState :=
  {| words := newWords; currentCard := currentCard state;
     error := error state; sessionStats := sessionStats state |}.

Definition ADD_WORD (state : RootState) (newWord : VocabularyWord)
    : RootState :=
  SET_WORDS state (words state ++ [newWord]).

Definition UPDATE_WORD (state : RootState) (updatedWord : VocabularyWord)
    : RootState :=
  let index :=
    findIndex (fun w => String.eqb (id w) (id updatedWord)) (words state) in
  if negb (index =? -1)%Z
  then SET_WORDS state (splice1 (words state) index updatedWord)
  else state.

Definition DELETE_WORD (state : RootState) (wordId : string) : RootState :=
  SET_WORDS state
    (filter (fun w => negb (String.eqb (id w) wordId)) (words state)).

Definition SET_CURRENT_CARD
    (state : RootState) (card : option VocabularyWord) : RootState :=
  {| words := words state; currentCard := card;
     error := error state; sessionStats := sessionStats state |}.

Definition SET_ERROR (state : RootState) (newError : option string)
    : RootState :=
  {| words := words state; currentCard := currentCard state;
     error := newError; sessionStats := sessionStats state |}.

Definition orKeep {A : Type} (update : option A) (old : A) : A :=
  match update with
  | Some a => a
  | None => old
  end.

Definition UPDATE_SESSION_STATS
    (state : RootState) (stats : PartialSessionStats) : RootState :=
  let old := sessionStats state in
  {| words := words state; currentCard := currentCard state;
     error := error state;
     sessionStats :=
       {| cardsReviewed := orKeep (p_cardsReviewed stats) (cardsReviewed old);
          correctAnswers :=
            orKeep (p_correctAnswers stats) (correctAnswers old);
          startTime := orKeep (p_startTime stats) (startTime old);
          currentStreak := orKeep (p_currentStreak stats) (currentStreak old);
          longestStreak :=
            orKeep (p_longestStreak stats) (longestStreak old) |} |}.

(** [now] is the reading of [new Date()]. *)
Definition RESET_SESSION_STATS (now : Z) (state : RootState) : RootState :=
  {| words := words state; currentCard := currentCard state;
     error := error state;
     sessionStats :=
       {| cardsReviewed := 0; correctAnswers := 0; startTime := Some now;
          currentStreak := 0;
          longestStreak := longestStreak (sessionStats state) |} |}.

(** The getters.  [now] is the reading of [new Date()]. *)
Definition dueCards (now : Z) (state : RootState) : list VocabularyWord :=
  filter (fun word => dateLe (nextReviewAt word) now) (words state).

(** The [accuracy] of [currentSessionStats] (and of the session that
    [endStudySession] records). *)
Definition sessionAccuracy (stats : SessionStats) : Z :=
  if (0 <? cardsReviewed stats)%Z
  then JS.Math_round
         (inject_Z (correctAnswers stats) / inject_Z (cardsReviewed stats)
          * 100)
  else 0%Z.

(** [masteredCards] and [masteryPercentage] of [overallStats]. *)
Definition masteredCards (state : RootState) : Z :=
  Z.of_nat
    (List.length (filter (fun w => JS.ge (masteryScore w) 90) (words state))).

Definition masteryPercentage (state : RootState) : Z :=
  let totalCards := Z.of_nat (List.length (words state)) in
  if (0 <? totalCards)%Z
  then JS.Math_round
         (inject_Z (masteredCards state) / inject_Z totalCards * 100)
  else 0%Z.

(** What an action can throw. *)
Inductive StoreError :=
  | NoCurrentCard               (* 'No current card' *)
  | ServiceError (e : Error)    (* thrown by [calculateNextReview] *)
  | SaveFailed.                 (* 'Failed to save words' *)

Definition message (e : StoreError) : string :=
  match e with
  | NoCurrentCard => "No current card"
  | ServiceError QualityOutOfRange => "Quality rating must be between 0 and 5"
  | ServiceError MasteryOutOfRange => "Mastery score must be between 0 and 100"
  | SaveFailed => "Failed to save words"
  end.

Inductive outcome (A : Type) :=
  | Returned (a : A)
  | Thrown (e : StoreError).
Arguments Returned {A} a.
Arguments Thrown {A} e.

(** What one call of [submitAnswer] reads from its environment, in the
    order of the reads. *)
Record AnswerEnv := {
  review_env : Env;     (* the readings of [calculateNextReview] *)
  storage_ok : bool;    (* whether [localStorage.setItem] succeeds *)
  now_entry : Z;        (* [new Date()] of the performance entry *)
  now_due : Z           (* [new Date()] of the [dueCards] getter, as of its
                           latest evaluation *)
}.

Definition difficultyName (d : Difficulty) : string :=
  match d with
  | beginner => "beginner"
  | intermediate => "intermediate"
  | advanced => "advanced"
  | master => "master"
  end.

Record Answer := {
  updatedWord : VocabularyWord;
  performanceEntry : PerformanceEntry;
  hasMoreCards : bool
}.

(** The action [submitAnswer]: what it returns or throws, and the state it
    leaves.  Without a current card it throws before its [try]; whatever is
    thrown inside is recorded with [SET_ERROR] and thrown again. *)
Definition submitAnswer
    (env : AnswerEnv) (state : RootState) (quality responseTime : Q)
    : outcome Answer * RootState :=
  match currentCard state with
  | None => (Thrown NoCurrentCard, state)
  | Some card =>
      match calculateNextReview (review_env env) card quality with
      | Throw e =>
          (Thrown (ServiceError e),
           SET_ERROR state (Some (message (ServiceError e))))
      | Ok updatedStats =>
          let updatedWord := merge card updatedStats in
          let isCorrect := JS.ge quality 3 in
          let newStreak :=
            if isCorrect then (currentStreak (sessionStats state) + 1)%Z
            else 0%Z in
          let longestStreak :=
            Z.max (longestStreak (sessionStats state)) newStreak in
          let state :=
            UPDATE_SESSION_STATS state
              {| p_cardsReviewed :=
                   Some (cardsReviewed (sessionStats state) + 1)%Z;
                 p_correctAnswers :=
                   Some (if isCorrect
                         then (correctAnswers (sessionStats state) + 1)%Z
                         else correctAnswers (sessionStats state));
                 p_startTime := None;
                 p_currentStreak := Some newStreak;
                 p_longestStreak := Some longestStreak |} in
          let state := UPDATE_WORD state updatedWord in
          if storage_ok env
          then
            let performanceEntry :=
              {| date := now_entry env;
                 accuracy := quality * 20;
                 responseTime := responseTime;
                 entryDifficulty := difficultyName (difficulty card) |} in
            let dueCards := dueCards (now_due env) state in
            let currentIndex :=
              findIndex (fun c => String.eqb (id c) (id card)) dueCards in
            let nextCard := itemAt dueCards (currentIndex + 1)%Z in
            (Returned {| updatedWord := updatedWord;
                         performanceEntry := performanceEntry;
                         hasMoreCards :=
                           match nextCard with
                           | Some _ => true
                           | None => false
                           end |},
             SET_CURRENT_CARD state nextCard)
          else (Thrown SaveFailed, SET_ERROR state (Some (message SaveFailed)))
      end
  end.

(** The ratings of a session, one call of [submitAnswer] after the other
    ([handleQualityRating] in [src/App.tsx] catches what a call throws and
    goes on). *)
Fixpoint answerRun
    (state : RootState) (answers : list (AnswerEnv * Q * Q)) : RootState :=
  match answers with
  | [] => state
  | (env, quality, responseTime) :: rest =>
      answerRun (snd (submitAnswer env state quality responseTime)) rest
  end.

(** What the counters of a session satisfy. *)
Definition consistentStats (stats : SessionStats) : Prop :=
  (0 <= currentStreak stats <= correctAnswers stats)%Z
  /\ (correctAnswers stats <= cardsReviewed stats)%Z
  /\ (currentStreak stats <= longestStreak stats)%Z.

(** A card like [sampleCard] under another id, due at [t]. *)
Definition cardWithId (name : string) (t : Z) : VocabularyWord :=
  {| id := name; word := word sampleCard; definition := definition sampleCard;
     translation := None; phonetic := None; audioUrl := None;
     difficulty := intermediate; category := None; tags := None;
     customTags := None; examples := []; synonyms := None;
     antonyms := None; usageNotes := None;
     interval := 6; easeFactor := 2.5; reviewCount := 2; masteryScore := 40;
     nextReviewAt := Some t; lastReviewedAt := Some 0%Z;
     createdAt := Some 0%Z; modifiedAt := None; personalNote := None;
     favorite := None; difficultyOverride := None;
     confidenceLevel := None |}.

(** A store in the middle of a session: three words, the first one on
    display. *)
Definition sampleState : RootState :=
  {| words := [cardWithId "a" 500; cardWithId "b" 2000; cardWithId "c" 700];
     currentCard := Some (cardWithId "a" 500);
     error := None;
     sessionStats :=
       {| cardsReviewed := 3; correctAnswers := 2; startTime := Some 0%Z;
          currentStreak := 1; longestStreak := 2 |} |}.

Definition sampleAnswerEnv : AnswerEnv :=
  {| review_env := sampleEnv; storage_ok := true; now_entry := 1000;
     now_due := 1000 |}.

(** The number of cards whose review date is at or before [t]. *)
Definition dueBy (t : Z) (cards : list VocabularyWord) : Z :=
  Z.of_nat (List.length (filter (fun c => dateLe (nextReviewAt c) t) cards)).

(** Highest key first. *)
Definition descendingBy {A : Type} (key : A -> R) (a b : A) : Prop :=
  (key b <= key a)%R.

(** The offsets of a zone differ by at most [shift]: 0 for a zone without
    changes of offset, an hour for a zone with daylight saving. *)
Definition offsetsWithin (shift : Z) (zone : TimeZone) : Prop :=
  forall t l : Z,
    (Z.abs (offsetAtUTC zone t - offsetAtLocal zone l) <= shift)%Z.

(** * Properties *)

(** ** Reasoning about the primitives *)

Lemma lt_true (x y : Q) : JS.lt x y = true -> x < y.
Proof.
  unfold JS.lt. intros H. apply negb_true_iff in H.
  apply Qnot_le_lt. intros L. apply Qle_bool_iff in L. congruence.
Qed.

Lemma lt_false (x y : Q) : JS.lt x y = false -> y <= x.
Proof.
  unfold JS.lt. intros H. apply negb_false_iff in H.
  now apply Qle_bool_iff.
Qed.

Lemma lt_iff (x y : Q) : JS.lt x y = true <-> x < y.
Proof.
  split; [apply lt_true|]. intros L.
  destruct (JS.lt x y) eqn:E; [reflexivity|].
  apply lt_false in E. lra.
Qed.

Lemma lt_false_iff (x y : Q) : JS.lt x y = false <-> y <= x.
Proof.
  split; [apply lt_false|]. intros L.
  destruct (JS.lt x y) eqn:E; [|reflexivity].
  apply lt_true in E. lra.
Qed.

Lemma ge_iff (x y : Q) : JS.ge x y = true <-> y <= x.
Proof. unfold JS.ge. apply Qle_bool_iff. Qed.

Lemma strict_eq_iff (x y : Q) : JS.strict_eq x y = true <-> x == y.
Proof. unfold JS.strict_eq. apply Qeq_bool_iff. Qed.

Lemma strict_eq_false (x y : Q) : ~ x == y -> JS.strict_eq x y = false.
Proof.
  intros N. destruct (JS.strict_eq x y) eqn:E; [|reflexivity].
  apply strict_eq_iff in E. contradiction.
Qed.

(** Case analysis on the first comparison of the goal. *)
Ltac js_case :=
  match goal with
  | |- context [JS.lt ?a ?b] =>
      let T := fresh "T" in
      destruct (JS.lt a b) eqn:T; [apply lt_true in T | apply lt_false in T]
  | |- context [JS.strict_eq ?a ?b] =>
      let T := fresh "T" in
      destruct (JS.strict_eq a b) eqn:T;
      [apply strict_eq_iff in T | apply Qeq_bool_neq in T]
  end.

(** Divisions by the literals of the source, as products. *)
Ltac qdiv :=
  unfold Qdiv in *;
  change (/ 100) with (1 # 100) in *;
  change (/ 5) with (1 # 5) in *.

Ltac qminmax :=
  repeat match goal with
  | |- context [Qmax ?a ?b] =>
      let H := fresh "M" in
      destruct (Q.max_spec a b) as [[? H]|[? H]]; rewrite H in *; clear H
  | |- context [Qmin ?a ?b] =>
      let H := fresh "M" in
      destruct (Q.min_spec a b) as [[? H]|[? H]]; rewrite H in *; clear H
  | _ : context [Qmax ?a ?b] |- _ =>
      let H := fresh "M" in
      destruct (Q.max_spec a b) as [[? H]|[? H]]; rewrite H in *; clear H
  | _ : context [Qmin ?a ?b] |- _ =>
      let H := fresh "M" in
      destruct (Q.min_spec a b) as [[? H]|[? H]]; rewrite H in *; clear H
  end.

Lemma Qfloor_between (lo hi : Z) (x : Q) :
  inject_Z lo <= x -> x < inject_Z hi + 1 -> (lo <= Qfloor x <= hi)%Z.
Proof.
  intros L U. split.
  - rewrite <- (Qfloor_Z lo). now apply Qfloor_resp_le.
  - apply Z.lt_succ_r. rewrite Zlt_Qlt.
    unfold Z.succ. rewrite inject_Z_plus.
    apply Qle_lt_trans with x; [apply Qfloor_le | exact U].
Qed.

Lemma Math_round_between (lo hi : Z) (x : Q) :
  inject_Z lo <= x -> x <= inject_Z hi -> (lo <= JS.Math_round x <= hi)%Z.
Proof.
  intros L U. unfold JS.Math_round.
  apply Qfloor_between; lra.
Qed.

(** [Math.round] returns a nearest integer. *)
Lemma Math_round_nearest (x : Q) :
  x - (1 # 2) < inject_Z (JS.Math_round x) <= x + (1 # 2).
Proof.
  unfold JS.Math_round. split.
  - pose proof (Qlt_floor (x + (1 # 2))) as H.
    rewrite inject_Z_plus in H. change (inject_Z 1) with 1 in H. lra.
  - apply Qfloor_le.
Qed.

Lemma clampEaseFactor_range (x : Q) : 1.3 <= clampEaseFactor x <= 2.5.
Proof.
  unfold clampEaseFactor, JS.Math_max, JS.Math_min,
    MIN_EASE_FACTOR, MAX_EASE_FACTOR.
  qminmax; lra.
Qed.

Lemma toFixed2_range (x : Q) :
  1.3 <= x <= 2.5 -> 1.3 <= JS.toFixed2 x <= 2.5.
Proof.
  intros [L U]. unfold JS.toFixed2.
  js_case; [lra|].
  destruct (Qfloor_between 130 250 (x * 100 + (1 # 2))) as [A B];
    [change (inject_Z 130) with 130; lra
    |change (inject_Z 250) with 250; lra|].
  rewrite Zle_Qle in A, B.
  change (inject_Z 130) with 130 in A. change (inject_Z 250) with 250 in B.
  qdiv. lra.
Qed.

(** ** The validation of [calculateNextReview] *)

Lemma quality_check (quality : Q) :
  JS.lt quality 0 || JS.gt quality 5 = false <-> 0 <= quality <= 5.
Proof.
  unfold JS.gt. rewrite orb_false_iff, !lt_false_iff. tauto.
Qed.

Lemma mastery_check (m : Q) :
  JS.lt m 0 || JS.gt m 100 = false <-> 0 <= m <= 100.
Proof.
  unfold JS.gt. rewrite orb_false_iff, !lt_false_iff. tauto.
Qed.

(** [calculateNextReview] in terms of its locals. *)
Lemma calculateNextReview_eq env card quality :
  calculateNextReview env card quality
  = if JS.lt quality 0 || JS.gt quality 5 then Throw QualityOutOfRange
    else if JS.lt (masteryScore card) 0 || JS.gt (masteryScore card) 100
    then Throw MasteryOutOfRange
    else Ok (reviewed env card quality).
Proof.
  unfold calculateNextReview, reviewed, newInterval, newReviewCount,
    newEaseFactor, newMasteryScore.
  destruct (JS.lt quality 3); reflexivity.
Qed.

Lemma calculateNextReview_ok env card quality :
  0 <= quality <= 5 -> 0 <= masteryScore card <= 100 ->
  calculateNextReview env card quality = Ok (reviewed env card quality).
Proof.
  intros Hq Hm. rewrite calculateNextReview_eq.
  apply quality_check in Hq. apply mastery_check in Hm.
  rewrite Hq, Hm. reflexivity.
Qed.

Lemma calculateNextReview_inv env card quality r :
  calculateNextReview env card quality = Ok r ->
  r = reviewed env card quality
  /\ 0 <= quality <= 5 /\ 0 <= masteryScore card <= 100.
Proof.
  rewrite calculateNextReview_eq.
  destruct (JS.lt quality 0 || JS.gt quality 5) eqn:Hq; [discriminate|].
  destruct (JS.lt (masteryScore card) 0 || JS.gt (masteryScore card) 100)
    eqn:Hm; [discriminate|].
  intros H. injection H as <-.
  apply quality_check in Hq. apply mastery_check in Hm. auto.
Qed.

(** ** Ranges of the computed fields *)

Lemma newMasteryScore_range card quality :
  0 <= newMasteryScore card quality <= 100.
Proof.
  unfold newMasteryScore, JS.Math_min, JS.Math_max. qminmax; lra.
Qed.

Lemma rounded_mastery_range card quality :
  (0 <= JS.Math_round (newMasteryScore card quality) <= 100)%Z.
Proof.
  pose proof (newMasteryScore_range card quality) as [L U].
  apply Math_round_between; assumption.
Qed.

Lemma newInterval_positive card quality :
  1 <= interval card -> (1 # 2) <= easeFactor card ->
  (1 <= newInterval card quality)%Z.
Proof.
  intros Hi He. unfold newInterval.
  repeat (js_case; [lia|]).
  unfold JS.Math_round.
  apply Z.le_trans with (Qfloor 1); [reflexivity|].
  apply Qfloor_resp_le. nra.
Qed.

Lemma calculateNextReviewDate_tomorrow zone now0 rnd now1 intervalDays :
  (addDays zone now1 1
   <= calculateNextReviewDate zone now0 rnd now1 intervalDays)%Z.
Proof.
  unfold calculateNextReviewDate. cbv zeta.
  match goal with
  | |- context [(?a <? ?b)%Z] => destruct (Z.ltb_spec a b); lia
  end.
Qed.

(** Moving a date by [k] days moves the instant by [k] times 24 hours, up to
    the change of offset in between. *)
Lemma addDays_within (shift : Z) zone d k :
  offsetsWithin shift zone ->
  (d + k * DAY - shift <= addDays zone d k <= d + k * DAY + shift)%Z.
Proof.
  intros H. unfold addDays, UTC, LocalTime.
  specialize (H d (d + offsetAtUTC zone d + k * DAY)%Z). lia.
Qed.

Lemma addDays_fixed zone d k :
  offsetsWithin 0 zone -> addDays zone d k = (d + k * DAY)%Z.
Proof.
  intros H. pose proof (addDays_within 0 zone d k H). lia.
Qed.

Lemma fixedZone_offsets (offset : Z) : offsetsWithin 0 (fixedZone offset).
Proof. intros t l. cbn. lia. Qed.

(** C1, amended. Invariant preservation: on a card that satisfies the
    invariants and a quality in [0,5], the fields [calculateNextReview]
    returns have easeFactor in [1.3,2.5], masteryScore a whole number in
    [0,100], interval at least 1, and a nextReviewAt that is not before
    tomorrow - the clock reading taken for the clamp, moved to the next
    calendar day at the same local time - whatever the random sample.  That
    is one day of 24 hours after the reading in a zone whose offset does not
    change, and in general 24 hours less the largest change of offset. *)
Theorem calculateNextReview_preserves_invariants env card quality r :
  validCard card -> 0 <= quality <= 5 ->
  calculateNextReview env card quality = Ok r ->
  1.3 <= s_easeFactor r <= 2.5
  /\ (exists n : Z, s_masteryScore r = inject_Z n /\ (0 <= n <= 100)%Z)
  /\ 1 <= s_interval r
  /\ exists t : Z,
       s_nextReviewAt r = Some t
       /\ (addDays (time_zone env) (now_tomorrow env) 1 <= t)%Z
       /\ (forall shift : Z,
             offsetsWithin shift (time_zone env) ->
             (now_tomorrow env + DAY - shift <= t)%Z).
Proof.
  intros (He & Hm & Hi) Hq Calc.
  apply calculateNextReview_inv in Calc as (-> & _ & _).
  cbn [reviewed s_easeFactor s_masteryScore s_interval s_nextReviewAt].
  split.
  { apply toFixed2_range. apply clampEaseFactor_range. }
  split.
  { eexists. split; [reflexivity|]. apply rounded_mastery_range. }
  split.
  { change 1 with (inject_Z 1). rewrite <- Zle_Qle.
    apply newInterval_positive; lra. }
  eexists. split; [reflexivity|].
  pose proof (calculateNextReviewDate_tomorrow (time_zone env)
    (now_base env) (random env) (now_tomorrow env)
    (newInterval card quality)) as H.
  split; [exact H|]. intros shift S.
  pose proof (addDays_within shift _ (now_tomorrow env) 1 S). lia.
Qed.

Lemma calculateNextReview_preserves_invariants_witness :
  1.3 <= s_easeFactor (reviewed sampleEnv sampleCard 4) <= 2.5
  /\ (exists n : Z,
        s_masteryScore (reviewed sampleEnv sampleCard 4) = inject_Z n
        /\ (0 <= n <= 100)%Z)
  /\ 1 <= s_interval (reviewed sampleEnv sampleCard 4)
  /\ exists t : Z,
       s_nextReviewAt (reviewed sampleEnv sampleCard 4) = Some t
       /\ (addDays (time_zone sampleEnv) (now_tomorrow sampleEnv) 1 <= t)%Z
       /\ (forall shift : Z,
             offsetsWithin shift (time_zone sampleEnv) ->
             (now_tomorrow sampleEnv + DAY - shift <= t)%Z).
Proof.
  apply (calculateNextReview_preserves_invariants sampleEnv sampleCard 4).
  - unfold validCard. cbn. repeat split; lra.
  - split; lra.
  - reflexivity.
Defined.

(** C1, as stated, fails: "at least one full day after now" does not hold
    where the clocks go forward.  A review at 12:00 UTC on 30 March 2024 in
    Central European time, the clock standing still during the call, is
    scheduled for the same local time on 31 March, which is 23 hours
    later. *)
Lemma next_review_23_hours_after_now :
  validCard sampleCard
  /\ 0 <= 2 <= 5
  /\ now_base dstEnv = now_tomorrow dstEnv
  /\ now_reviewed dstEnv = now_tomorrow dstEnv
  /\ exists r,
       calculateNextReview dstEnv sampleCard 2 = Ok r
       /\ s_nextReviewAt r = Some (now_tomorrow dstEnv + 23 * HOUR)%Z
       /\ (now_tomorrow dstEnv + 23 * HOUR < now_tomorrow dstEnv + DAY)%Z.
Proof.
  split.
  { unfold validCard. cbn. repeat split; lra. }
  split; [split; lra|].
  split; [reflexivity|]. split; [reflexivity|].
  eexists. split; [vm_compute; reflexivity|].
  split; [vm_compute; reflexivity | vm_compute; reflexivity].
Qed.

(** ** Rejected inputs *)

(** The outcome of a range test [x < 0 || x > hi]. *)
Lemma range_check (x hi : Q) :
  (JS.lt x 0 || JS.gt x hi = true /\ (x < 0 \/ hi < x))
  \/ (JS.lt x 0 || JS.gt x hi = false /\ 0 <= x <= hi).
Proof.
  unfold JS.gt.
  destruct (JS.lt x 0) eqn:A; [apply lt_true in A | apply lt_false in A];
  (destruct (JS.lt hi x) eqn:B; [apply lt_true in B | apply lt_false in B]);
  cbn [orb]; auto.
Qed.

(** C2, as stated, fails: a quality that is no whole number but lies between
    0 and 5 is accepted.  With quality 2.5 the call takes the failure branch
    (2.5 < 3), finds no ease adjustment for 2.5 and returns the fields
    (2.5 is the fraction 250/100 that [toFixed2] builds). *)
Lemma calculateNextReview_accepts_fractional_quality :
  ~ integerRating 2.5
  /\ 0 <= masteryScore sampleCard <= 100
  /\ calculateNextReview sampleEnv sampleCard 2.5
     = Ok {| s_interval := 1; s_easeFactor := 250 # 100;
             s_reviewCount := 0; s_masteryScore := 28;
             s_nextReviewAt := Some (1000 + DAY)%Z;
             s_lastReviewedAt := Some 1000%Z |}.
Proof.
  split; [|split].
  - intros (n & E & _).
    unfold Qeq in E. cbn [Qnum Qden inject_Z] in E. lia.
  - split; vm_compute; discriminate.
  - vm_compute. reflexivity.
Qed.

(** C2, amended. [calculateNextReview] fails its validation exactly when
    [quality < 0], [quality > 5], or the card's masteryScore is below 0 or
    above 100: it throws the quality error exactly in the first two cases
    and the mastery error exactly when the quality is in range and the
    mastery is not, so the quality is checked first.  A call that passes the
    validation throws neither.  The checks read neither the clock nor the
    random source, and a call that throws returns no fields. *)
Theorem calculateNextReview_throws_iff env card quality :
  (calculateNextReview env card quality = Throw QualityOutOfRange
   <-> quality < 0 \/ 5 < quality)
  /\ (calculateNextReview env card quality = Throw MasteryOutOfRange
      <-> 0 <= quality <= 5
          /\ (masteryScore card < 0 \/ 100 < masteryScore card))
  /\ (calculateNextReview env card quality = Throw QualityOutOfRange
      \/ calculateNextReview env card quality = Throw MasteryOutOfRange
      <-> quality < 0 \/ 5 < quality
          \/ masteryScore card < 0 \/ 100 < masteryScore card)
  /\ (forall e, calculateNextReview env card quality = Throw e ->
      forall env', calculateNextReview env' card quality = Throw e).
Proof.
  setoid_rewrite calculateNextReview_eq.
  destruct (range_check quality 5) as [[-> Hq]|[-> Hq]];
  [|destruct (range_check (masteryScore card) 100) as [[-> Hm]|[-> Hm]]];
  (split; [|split; [|split]]);
  try (split; intros H); try (intros e H env');
  try discriminate H; try reflexivity; try assumption;
  try solve [ destruct H; discriminate | left; reflexivity
            | right; reflexivity | split; assumption | lra | tauto
            | destruct H as [H|H]; discriminate H
            | destruct H as (? & [? | ?]); lra ].
Qed.

(** ** Failed reviews *)

(** C3. Failure resets: for a card with reviewCount > 0 and a quality of 0,
    1 or 2, [calculateNextReview] returns reviewCount = 0 and interval = 1,
    whatever the interval, ease factor and mastery were (the call returns as
    soon as the mastery is one the validation lets through). *)
Theorem failed_review_resets env card quality :
  0 < reviewCount card ->
  quality == 0 \/ quality == 1 \/ quality == 2 ->
  (0 <= masteryScore card <= 100 ->
   exists r, calculateNextReview env card quality = Ok r)
  /\ (forall r, calculateNextReview env card quality = Ok r ->
      s_reviewCount r = 0 /\ s_interval r = 1).
Proof.
  intros _ Hq. split.
  - intros Hm. eexists. apply calculateNextReview_ok; [|exact Hm].
    destruct Hq as [E|[E|E]]; rewrite E; split; lra.
  - intros r H. apply calculateNextReview_inv in H as (-> & _ & _).
    assert (L : JS.lt quality 3 = true).
    { apply lt_iff. destruct Hq as [E|[E|E]]; rewrite E; lra. }
    cbn [reviewed s_reviewCount s_interval].
    unfold newReviewCount, newInterval. rewrite L. split; reflexivity.
Qed.

Lemma failed_review_resets_witness :
  (0 <= masteryScore sampleCard <= 100 ->
   exists r, calculateNextReview sampleEnv sampleCard 1 = Ok r)
  /\ (forall r, calculateNextReview sampleEnv sampleCard 1 = Ok r ->
      s_reviewCount r = 0 /\ s_interval r = 1).
Proof.
  apply (failed_review_resets sampleEnv sampleCard 1).
  - reflexivity.
  - right. left. reflexivity.
Defined.

(** ** Successive reviews *)

Lemma toFixed2_comp (x y : Q) : x == y -> JS.toFixed2 x = JS.toFixed2 y.
Proof.
  intros E. unfold JS.toFixed2, JS.lt.
  assert (A : Qle_bool 0 x = Qle_bool 0 y) by (now rewrite E).
  assert (B : Qfloor (x * 100 + (1 # 2)) = Qfloor (y * 100 + (1 # 2)))
    by (apply Qfloor_comp; now rewrite E).
  assert (C : Qfloor (- x * 100 + (1 # 2)) = Qfloor (- y * 100 + (1 # 2)))
    by (apply Qfloor_comp; now rewrite E).
  now rewrite A, B, C.
Qed.

Lemma newEaseFactor_ceiling card :
  easeFactor card == 2.5 -> JS.toFixed2 (newEaseFactor card 5) == 2.5.
Proof.
  intros E.
  rewrite (toFixed2_comp (newEaseFactor card 5) 2.5); [reflexivity|].
  unfold newEaseFactor, clampEaseFactor, JS.Math_max, JS.Math_min,
    MIN_EASE_FACTOR, MAX_EASE_FACTOR.
  change (calculateEaseFactorChange 5) with 0.15.
  qminmax; lra.
Qed.

Lemma perfect_review env card :
  0 <= masteryScore card <= 100 ->
  exists c,
    review env card 5 = Ok c
    /\ interval c = inject_Z (newInterval card 5)
    /\ (easeFactor card == 2.5 -> easeFactor c == 2.5)
    /\ reviewCount c == reviewCount card + 1
    /\ 0 <= masteryScore c <= 100.
Proof.
  intros Hm. unfold review.
  rewrite calculateNextReview_ok; [|split; lra|exact Hm].
  eexists. split; [reflexivity|].
  cbn [merge spread reviewed interval easeFactor reviewCount masteryScore
       s_interval s_easeFactor s_reviewCount s_masteryScore].
  split; [reflexivity|]. split; [apply newEaseFactor_ceiling|].
  split.
  - unfold newReviewCount. change (JS.lt 5 3) with false. reflexivity.
  - pose proof (rounded_mastery_range card 5) as [L U].
    rewrite Zle_Qle in L, U. exact (conj L U).
Qed.

Lemma newInterval_first card quality :
  3 <= quality -> reviewCount card == 0 -> newInterval card quality = 1%Z.
Proof.
  intros Hq E. unfold newInterval.
  apply lt_false_iff in Hq. apply strict_eq_iff in E. now rewrite Hq, E.
Qed.

Lemma newInterval_second card quality :
  3 <= quality -> reviewCount card == 1 -> newInterval card quality = 6%Z.
Proof.
  intros Hq E. unfold newInterval.
  apply lt_false_iff in Hq. rewrite Hq.
  rewrite strict_eq_false by (rewrite E; discriminate).
  apply strict_eq_iff in E. now rewrite E.
Qed.

Lemma newInterval_later card quality :
  3 <= quality -> ~ reviewCount card == 0 -> ~ reviewCount card == 1 ->
  newInterval card quality
  = JS.Math_round (interval card * easeFactor card).
Proof.
  intros Hq E0 E1. unfold newInterval.
  apply lt_false_iff in Hq. rewrite Hq.
  now rewrite !strict_eq_false.
Qed.

(** C4. Growth sequencing: from a fresh card (interval 1, easeFactor 2.5,
    reviewCount 0), three successive reviews of quality 5, each on the card
    the previous one produced, give the intervals 1, 6, 15; the easeFactor
    stays 2.5 and the reviewCount becomes 1, 2, 3. *)
Theorem three_perfect_reviews env1 env2 env3 card :
  interval card == 1 -> easeFactor card == 2.5 -> reviewCount card == 0 ->
  0 <= masteryScore card <= 100 ->
  exists c1 c2 c3,
    review env1 card 5 = Ok c1
    /\ review env2 c1 5 = Ok c2
    /\ review env3 c2 5 = Ok c3
    /\ (interval c1 = 1 /\ interval c2 = 6 /\ interval c3 = 15)
    /\ (easeFactor c1 == 2.5 /\ easeFactor c2 == 2.5 /\ easeFactor c3 == 2.5)
    /\ (reviewCount c1 == 1 /\ reviewCount c2 == 2 /\ reviewCount c3 == 3).
Proof.
  intros _ He Hr Hm.
  destruct (perfect_review env1 card Hm) as (c1 & R1 & I1 & E1 & N1 & M1).
  destruct (perfect_review env2 c1 M1) as (c2 & R2 & I2 & E2 & N2 & M2).
  destruct (perfect_review env3 c2 M2) as (c3 & R3 & I3 & E3 & N3 & M3).
  specialize (E1 He). specialize (E2 E1). specialize (E3 E2).
  assert (C1 : reviewCount c1 == 1) by (rewrite N1, Hr; reflexivity).
  assert (C2 : reviewCount c2 == 2) by (rewrite N2, C1; reflexivity).
  assert (C3 : reviewCount c3 == 3) by (rewrite N3, C2; reflexivity).
  rewrite newInterval_first in I1 by (lra || assumption).
  rewrite newInterval_second in I2 by (lra || assumption).
  rewrite newInterval_later in I3
    by (lra || (rewrite C2; discriminate)).
  assert (P : interval c2 * easeFactor c2 == 15)
    by (rewrite I2, E2; reflexivity).
  unfold JS.Math_round in I3. rewrite P in I3.
  exists c1, c2, c3. repeat split; assumption.
Qed.

Lemma three_perfect_reviews_witness :
  exists c1 c2 c3,
    review sampleEnv (initializeCard 0 0 sampleData) 5 = Ok c1
    /\ review sampleEnv c1 5 = Ok c2
    /\ review sampleEnv c2 5 = Ok c3
    /\ (interval c1 = 1 /\ interval c2 = 6 /\ interval c3 = 15)
    /\ (easeFactor c1 == 2.5 /\ easeFactor c2 == 2.5 /\ easeFactor c3 == 2.5)
    /\ (reviewCount c1 == 1 /\ reviewCount c2 == 2 /\ reviewCount c3 == 3).
Proof.
  apply (three_perfect_reviews sampleEnv sampleEnv sampleEnv
           (initializeCard 0 0 sampleData)).
  - reflexivity.
  - reflexivity.
  - reflexivity.
  - split; vm_compute; discriminate.
Defined.

(** ** The mastery update *)

Lemma calculateMasteryIncrement_spec (quality m : Q) :
  calculateMasteryIncrement quality m == spec_masteryDelta quality m.
Proof.
  unfold calculateMasteryIncrement, spec_masteryDelta, JS.Math_max,
    MASTERY_INCREMENT.
  js_case; destruct (Qlt_le_dec quality 3); try lra.
  cbv zeta. destruct (Qlt_le_dec (1 - m / 100) 0.3); qminmax; lra.
Qed.

Lemma newMasteryScore_spec card quality :
  newMasteryScore card quality
  == spec_mastery quality (masteryScore card).
Proof.
  unfold newMasteryScore, spec_mastery, spec_clamp, JS.Math_min, JS.Math_max.
  rewrite calculateMasteryIncrement_spec.
  destruct (Qlt_le_dec _ 0); [|destruct (Qlt_le_dec 100 _)]; qminmax; lra.
Qed.

(** C5. Mastery update: for a valid card and a quality in [0,5], the delta
    the code computes is the penalty or gain of the specification, and the
    returned masteryScore is the input mastery plus that delta, clamped to
    [0,100] and rounded to a nearest whole number (a tie going up). *)
Theorem mastery_update_formula env card quality :
  validCard card -> 0 <= quality <= 5 ->
  calculateMasteryIncrement quality (masteryScore card)
  == spec_masteryDelta quality (masteryScore card)
  /\ exists r n,
       calculateNextReview env card quality = Ok r
       /\ s_masteryScore r = inject_Z n
       /\ nearest_integer (spec_mastery quality (masteryScore card)) n
       /\ n = Qfloor (spec_mastery quality (masteryScore card) + (1 # 2)).
Proof.
  intros (_ & Hm & _) Hq. split; [apply calculateMasteryIncrement_spec|].
  exists (reviewed env card quality),
    (JS.Math_round (newMasteryScore card quality)).
  split; [now apply calculateNextReview_ok|].
  split; [reflexivity|].
  pose proof (newMasteryScore_spec card quality) as E.
  split.
  - unfold nearest_integer. rewrite <- E.
    pose proof (Math_round_nearest (newMasteryScore card quality)) as [L U].
    apply Qabs_Qle_condition. split; lra.
  - unfold JS.Math_round. apply Qfloor_comp. now rewrite E.
Qed.

Lemma mastery_update_formula_witness :
  calculateMasteryIncrement 4 (masteryScore sampleCard)
  == spec_masteryDelta 4 (masteryScore sampleCard)
  /\ exists r n,
       calculateNextReview sampleEnv sampleCard 4 = Ok r
       /\ s_masteryScore r = inject_Z n
       /\ nearest_integer (spec_mastery 4 (masteryScore sampleCard)) n
       /\ n = Qfloor (spec_mastery 4 (masteryScore sampleCard) + (1 # 2)).
Proof.
  apply (mastery_update_formula sampleEnv sampleCard 4).
  - unfold validCard. repeat split; vm_compute; discriminate.
  - split; vm_compute; discriminate.
Defined.

(** A worked example: a third success of quality 4 on mastery 40, interval 6
    and ease 2.5 gives mastery 52 and interval 15. *)
Example third_success_example :
  calculateNextReview sampleEnv sampleCard 4
  = Ok {| s_interval := 15; s_easeFactor := 250 # 100; s_reviewCount := 3;
          s_masteryScore := 52;
          s_nextReviewAt := Some (1000 + 15 * DAY)%Z;
          s_lastReviewedAt := Some 1000%Z |}.
Proof. vm_compute. reflexivity. Qed.

(** ** The review priority *)

Section PriorityOrder.

Local Open Scope R_scope.

Variable now : Z.

(** [getReviewPriority] in terms of its locals. *)
Lemma getReviewPriority_eq card :
  getReviewPriority now card
  = (overdueWeight now card * 2 + masteryWeight card * 3)
    * difficultyWeight card * recencyPenalty card.
Proof. reflexivity. Qed.

Lemma daysOverdue_nonneg card : 0 <= daysOverdue now card.
Proof.
  unfold daysOverdue. destruct (nextReviewAt card); [apply Rmax_l | lra].
Qed.

Lemma overdueWeight_increasing c1 c2 :
  daysOverdue now c2 < daysOverdue now c1 ->
  overdueWeight now c2 < overdueWeight now c1.
Proof.
  intros H. unfold overdueWeight.
  pose proof (daysOverdue_nonneg c2).
  apply Rlt_Rpower_l; lra.
Qed.

Lemma difficultyWeight_positive card : 0 < difficultyWeight card.
Proof. unfold difficultyWeight. destruct (difficulty card); lra. Qed.

Lemma recencyPenalty_positive card : 0 < recencyPenalty card.
Proof.
  unfold recencyPenalty. destruct (JS.strict_eq (reviewCount card) 0); lra.
Qed.

Lemma recencyPenalty_comp c1 c2 :
  (reviewCount c1 == reviewCount c2)%Q ->
  recencyPenalty c1 = recencyPenalty c2.
Proof.
  intros E. unfold recencyPenalty, JS.strict_eq. now rewrite E.
Qed.

End PriorityOrder.

(** C6. Priority ordering: of two cards with the same masteryScore,
    difficulty and reviewCount, read at the same instant, the one that is
    overdue by strictly more days has the strictly higher priority; the
    score is (overdueWeight * 2 + masteryWeight * 3) * difficultyWeight *
    recencyPenalty, with overdueWeight = (daysOverdue + 1) ^ 1.5. *)
Theorem priority_increases_with_overdue now c1 c2 :
  masteryScore c1 == masteryScore c2 ->
  difficulty c1 = difficulty c2 ->
  reviewCount c1 == reviewCount c2 ->
  (daysOverdue now c2 < daysOverdue now c1)%R ->
  (getReviewPriority now c2 < getReviewPriority now c1)%R
  /\ (forall c,
        getReviewPriority now c
        = (Rpower (daysOverdue now c + 1) 1.5 * 2
           + (100 - Q2R (masteryScore c)) / 100 * 3)
          * difficultyWeight c * recencyPenalty c)%R.
Proof.
  intros Hm Hd Hr Ho. split; [|reflexivity].
  rewrite !getReviewPriority_eq.
  pose proof (overdueWeight_increasing now c1 c2 Ho) as W.
  pose proof (difficultyWeight_positive c1) as D.
  pose proof (recencyPenalty_positive c1) as P.
  assert (Em : masteryWeight c2 = masteryWeight c1).
  { unfold masteryWeight. now rewrite (Qeq_eqR _ _ Hm). }
  assert (Ed : difficultyWeight c2 = difficultyWeight c1).
  { unfold difficultyWeight. now rewrite Hd. }
  rewrite Em, Ed, (recencyPenalty_comp c2 c1) by (now symmetry).
  apply Rmult_lt_compat_r; [exact P|].
  apply Rmult_lt_compat_r; [exact D|].
  lra.
Qed.

Lemma daysOverdue_cardDueAt (t k : Z) :
  (0 <= k)%Z -> daysOverdue (t + k * DAY) (cardDueAt t) = IZR k.
Proof.
  intros Hk. unfold daysOverdue, cardDueAt.
  cbn [nextReviewAt spread s_nextReviewAt].
  replace (t + k * DAY - t)%Z with (k * DAY)%Z by lia.
  unfold DAY. rewrite !mult_IZR.
  apply IZR_le in Hk.
  rewrite Rmax_right.
  - field.
  - apply Rmult_le_pos; [|lra].
    apply Rmult_le_pos; [exact Hk|]. lra.
Qed.

Lemma priority_increases_with_overdue_witness :
  (getReviewPriority (5 * DAY) (cardDueAt (4 * DAY))
   < getReviewPriority (5 * DAY) (cardDueAt 0))%R
  /\ (forall c,
        getReviewPriority (5 * DAY) c
        = (Rpower (daysOverdue (5 * DAY) c + 1) 1.5 * 2
           + (100 - Q2R (masteryScore c)) / 100 * 3)
          * difficultyWeight c * recencyPenalty c)%R.
Proof.
  apply (priority_increases_with_overdue (5 * DAY)
           (cardDueAt 0) (cardDueAt (4 * DAY))).
  - reflexivity.
  - reflexivity.
  - reflexivity.
  - change (5 * DAY)%Z with (4 * DAY + 1 * DAY)%Z at 1.
    change (5 * DAY)%Z with (0 + 5 * DAY)%Z.
    rewrite !daysOverdue_cardDueAt by lia.
    apply IZR_lt. lia.
Defined.

(** ** Initialisation and reset *)

Lemma wordData_spread d s : wordData (spread d s) = d.
Proof. destruct d. reflexivity. Qed.

Lemma scheduling_spread d s : scheduling (spread d s) = s.
Proof. destruct s. reflexivity. Qed.

(** C7. [initializeCard] and [resetCardProgress] produce interval 1,
    easeFactor 2.5, reviewCount 0 and masteryScore 0, with nextReviewAt and
    lastReviewedAt the clock readings taken for them; [initializeCard] keeps
    the data it is given and [resetCardProgress] leaves every non-scheduling
    field of the card as it was. *)
Theorem initialization_and_reset now0 now1 d card :
  let fresh := initializeCard now0 now1 d in
  let again := resetCardProgress now0 now1 card in
  (interval fresh = 1 /\ easeFactor fresh = 2.5 /\ reviewCount fresh = 0
   /\ masteryScore fresh = 0
   /\ nextReviewAt fresh = Some now0 /\ lastReviewedAt fresh = Some now1
   /\ wordData fresh = d)
  /\ (interval again = 1 /\ easeFactor again = 2.5 /\ reviewCount again = 0
      /\ masteryScore again = 0
      /\ nextReviewAt again = Some now0 /\ lastReviewedAt again = Some now1
      /\ wordData again = wordData card
      /\ (id again = id card /\ word again = word card
          /\ definition again = definition card
          /\ difficulty again = difficulty card
          /\ tags again = tags card)).
Proof.
  cbv zeta. unfold initializeCard, resetCardProgress.
  rewrite !wordData_spread. repeat split.
Qed.

(** ** The jitter of the next review date *)

Lemma finalVariation_cases intervalDays rnd :
  (finalVariation intervalDays rnd = 0
   \/ finalVariation intervalDays rnd = 1
   \/ finalVariation intervalDays rnd = -1)%Z.
Proof.
  unfold finalVariation. cbv zeta.
  destruct (Z.leb_spec 0 (variationDays intervalDays rnd)); lia.
Qed.

Lemma variationDays_short intervalDays rnd :
  - 0.1 <= randomVariation rnd < 0.1 ->
  (1 <= intervalDays <= 4)%Z ->
  variationDays intervalDays rnd = 0%Z.
Proof.
  intros [L U] [A B]. unfold variationDays.
  rewrite Zle_Qle in A, B.
  change (inject_Z 1) with 1 in A. change (inject_Z 4) with 4 in B.
  assert (H : (0 <= JS.Math_round
                      (inject_Z intervalDays * randomVariation rnd) <= 0)%Z).
  { unfold JS.Math_round.
    apply Qfloor_between; change (inject_Z 0) with 0; nra. }
  lia.
Qed.

(** C10, amended. The jitter added to the next review date is 0, +1 or -1
    days, and for an interval of 1 to 4 days and a random variation in
    [-0.1, 0.1) it is 0: [Math.round(interval * variation)] is 0.  The next
    review date is then the later of two dates: the first clock reading
    moved by [interval] calendar days, and tomorrow of the second reading.
    In a zone whose offset does not change these are [interval] days and one
    day of 24 hours after the readings; the clamp then leaves the date alone
    exactly when the second reading is at most [interval - 1] days after the
    first, and otherwise returns tomorrow of the second reading - with an
    interval of 1 day, as soon as the clock has advanced between the two
    readings. *)
Theorem short_interval_has_no_jitter zone now0 now1 rnd intervalDays :
  (finalVariation intervalDays rnd = 0
   \/ finalVariation intervalDays rnd = 1
   \/ finalVariation intervalDays rnd = -1)%Z
  /\ (- 0.1 <= randomVariation rnd < 0.1 ->
      (1 <= intervalDays <= 4)%Z ->
      JS.Math_round (inject_Z intervalDays * randomVariation rnd) = 0%Z
      /\ finalVariation intervalDays rnd = 0%Z
      /\ calculateNextReviewDate zone now0 rnd now1 intervalDays
         = Z.max (addDays zone (addDays zone now0 intervalDays) 0)
             (addDays zone now1 1)
      /\ (offsetsWithin 0 zone ->
          calculateNextReviewDate zone now0 rnd now1 intervalDays
          = Z.max (now0 + intervalDays * DAY) (now1 + DAY)
          /\ ((now1 <= now0 + (intervalDays - 1) * DAY)%Z ->
              calculateNextReviewDate zone now0 rnd now1 intervalDays
              = (now0 + intervalDays * DAY)%Z)
          /\ ((now0 + (intervalDays - 1) * DAY < now1)%Z ->
              calculateNextReviewDate zone now0 rnd now1 intervalDays
              = (now1 + DAY)%Z
              /\ (now0 + intervalDays * DAY < now1 + DAY)%Z))).
Proof.
  split; [apply finalVariation_cases|].
  intros Hr Hi.
  pose proof (variationDays_short intervalDays rnd Hr Hi) as V.
  assert (F : finalVariation intervalDays rnd = 0%Z).
  { unfold finalVariation. rewrite V. reflexivity. }
  split; [exact V|]. split; [exact F|].
  assert (E : calculateNextReviewDate zone now0 rnd now1 intervalDays
              = Z.max (addDays zone (addDays zone now0 intervalDays) 0)
                  (addDays zone now1 1)).
  { unfold calculateNextReviewDate. cbv zeta. rewrite F.
    match goal with
    | |- context [(?a <? ?b)%Z] => destruct (Z.ltb_spec a b); lia
    end. }
  split; [exact E|]. intros Fixed.
  rewrite E, !(addDays_fixed zone) by exact Fixed.
  repeat split; intros; lia.
Qed.

Lemma randomVariation_range rnd :
  0 <= rnd < 1 -> - 0.1 <= randomVariation rnd < 0.1.
Proof. unfold randomVariation. intros [L U]. split; lra. Qed.

Lemma short_interval_has_no_jitter_witness :
  JS.Math_round (inject_Z 3 * randomVariation (1 # 1000)) = 0%Z
  /\ finalVariation 3 (1 # 1000) = 0%Z
  /\ calculateNextReviewDate (fixedZone 0) 1000 (1 # 1000) 1001 3
     = (1000 + 3 * DAY)%Z.
Proof.
  assert (Hr : - 0.1 <= randomVariation (1 # 1000) < 0.1)
    by (split; vm_compute; [discriminate | reflexivity]).
  assert (Hi : (1 <= 3 <= 4)%Z) by lia.
  destruct (proj2 (short_interval_has_no_jitter
                     (fixedZone 0) 1000 1001 (1 # 1000) 3) Hr Hi)
    as (A & B & _ & C).
  split; [exact A|]. split; [exact B|].
  apply (C (fixedZone_offsets 0)). vm_compute. discriminate.
Defined.

(** C10, as stated, fails for an interval of 1 day: the source reads the
    clock once for the base date and once more for tomorrow, and when the
    clock has advanced in between - here by a millisecond - the base date,
    one day after the first reading, is before tomorrow, so that the clamp
    does move it: the date returned is not one day after the first
    reading. *)
Lemma clamp_moves_a_one_day_interval :
  - 0.1 <= randomVariation (1 # 2) < 0.1
  /\ finalVariation 1 (1 # 2) = 0%Z
  /\ addDays (fixedZone 0) (addDays (fixedZone 0) 1000 1)
       (finalVariation 1 (1 # 2)) = (1000 + 1 * DAY)%Z
  /\ calculateNextReviewDate (fixedZone 0) 1000 (1 # 2) 1001 1
     = (1001 + DAY)%Z
  /\ calculateNextReviewDate (fixedZone 0) 1000 (1 # 2) 1001 1
     <> (1000 + 1 * DAY)%Z.
Proof.
  split; [split; vm_compute; [discriminate | reflexivity]|].
  repeat split; try (vm_compute; reflexivity).
  vm_compute. discriminate.
Qed.

(** ** Time to mastery *)

Lemma div_finite (a b : Q) :
  ~ b == 0 -> Num.div (Finite a) (Finite b) = Finite (a / b).
Proof.
  intros N. unfold Num.div.
  destruct (Qeq_bool b 0) eqn:E; [|reflexivity].
  apply Qeq_bool_eq in E. contradiction.
Qed.

Lemma div_by_zero (a b : Q) :
  0 < a -> b == 0 -> Num.div (Finite a) (Finite b) = PosInfinity.
Proof.
  intros P Z. unfold Num.div.
  apply Qeq_bool_iff in Z. rewrite Z.
  rewrite strict_eq_false by lra.
  assert (L : JS.lt a 0 = false) by (apply lt_false_iff; lra).
  now rewrite L.
Qed.

Lemma div_infinity (b : Q) :
  0 <= b -> Num.div PosInfinity (Finite b) = PosInfinity.
Proof.
  intros P. unfold Num.div.
  assert (L : JS.lt b 0 = false) by (now apply lt_false_iff).
  now rewrite L.
Qed.

(** C8 fails on the code: with an average accuracy of 0 the gain per review
    is 0, the missing points are divided by zero, and for every mastery below
    95 and every rate of at least one review a day both estimates are
    [Infinity], not a finite pair. *)
Theorem estimateTimeToMastery_zero_accuracy currentMastery reviewsPerDay :
  0 <= currentMastery < 95 -> 1 <= reviewsPerDay ->
  estimateTimeToMastery currentMastery 0 reviewsPerDay
  = {| days := PosInfinity; reviews := PosInfinity |}
  /\ ~ Num.is_finite
        (days (estimateTimeToMastery currentMastery 0 reviewsPerDay))
  /\ ~ Num.is_finite
        (reviews (estimateTimeToMastery currentMastery 0 reviewsPerDay)).
Proof.
  intros [L U] Hr.
  assert (E : estimateTimeToMastery currentMastery 0 reviewsPerDay
              = {| days := PosInfinity; reviews := PosInfinity |}).
  { unfold estimateTimeToMastery.
    destruct (JS.ge currentMastery 95) eqn:G; [apply ge_iff in G; lra|].
    cbv zeta. rewrite div_by_zero by (qdiv; lra).
    cbn [Num.Math_ceil Num.rounding].
    rewrite div_infinity by lra. reflexivity. }
  rewrite E. cbn [days reviews].
  repeat split; intros [q H]; discriminate H.
Qed.

(** At mastery 50 and ten reviews a day. *)
Lemma estimateTimeToMastery_zero_accuracy_witness :
  estimateTimeToMastery 50 0 10
  = {| days := PosInfinity; reviews := PosInfinity |}
  /\ ~ Num.is_finite (days (estimateTimeToMastery 50 0 10))
  /\ ~ Num.is_finite (reviews (estimateTimeToMastery 50 0 10)).
Proof.
  apply (estimateTimeToMastery_zero_accuracy 50 10).
  - split; vm_compute; [discriminate | reflexivity].
  - vm_compute; discriminate.
Defined.

(** With a positive accuracy the estimate is the finite pair of the
    specification. *)
Lemma estimateTimeToMastery_finite currentMastery averageAccuracy reviewsPerDay :
  0 <= currentMastery < 95 -> 0 < averageAccuracy <= 100 ->
  1 <= reviewsPerDay ->
  let reviewsNeeded :=
    Qceiling ((100 - currentMastery)
              / (averageAccuracy / 100 * 15
                 * (1 - currentMastery / 100 * 0.5))) in
  estimateTimeToMastery currentMastery averageAccuracy reviewsPerDay
  = {| days :=
         Finite (inject_Z (Qceiling (inject_Z reviewsNeeded / reviewsPerDay)));
       reviews := Finite (inject_Z reviewsNeeded) |}.
Proof.
  intros [L U] [A B] Hr. cbv zeta. unfold estimateTimeToMastery.
  destruct (JS.ge currentMastery 95) eqn:G; [apply ge_iff in G; lra|].
  cbv zeta. rewrite div_finite by (qdiv; intros E; nra).
  cbn [Num.Math_ceil Num.rounding].
  rewrite div_finite by (intros E; lra). reflexivity.
Qed.

Lemma estimateTimeToMastery_mastered currentMastery averageAccuracy reviewsPerDay :
  95 <= currentMastery ->
  estimateTimeToMastery currentMastery averageAccuracy reviewsPerDay
  = {| days := Finite 0; reviews := Finite 0 |}.
Proof.
  intros H. unfold estimateTimeToMastery.
  apply ge_iff in H. now rewrite H.
Qed.

(** ** The daily goal *)

Lemma clamp_goal (k : Z) :
  exists n : Z,
    JS.Math_min (JS.Math_max 10 (inject_Z k)) 100 = inject_Z n
    /\ (10 <= n <= 100)%Z.
Proof.
  unfold JS.Math_min, JS.Math_max, Qmin, Qmax,
    GenericMinMax.gmin, GenericMinMax.gmax.
  destruct (10 ?= inject_Z k) eqn:A.
  - exists 10%Z. split; [reflexivity | lia].
  - apply Qlt_alt in A. change 10 with (inject_Z 10) in A.
    rewrite <- Zlt_Qlt in A.
    destruct (inject_Z k ?= 100) eqn:B.
    + exists k. split; [reflexivity|].
      apply Qeq_alt in B. unfold Qeq in B. cbn in B. lia.
    + exists k. split; [reflexivity|].
      apply Qlt_alt in B. change 100 with (inject_Z 100) in B.
      rewrite <- Zlt_Qlt in B. lia.
    + exists 100%Z. split; [reflexivity | lia].
  - exists 10%Z. split; [reflexivity | lia].
Qed.

Section DailyGoalRange.

Variable Math_log10 : Q -> number.

(** The logarithm of a positive number is a finite number. *)
Hypothesis Math_log10_finite :
  forall x : Q, 0 < x -> Num.is_finite (Math_log10 x).

Lemma calculateDailyGoal_clamped
    totalWords dueWords averageStudyTime availableTime averageAccuracy :
  - 1 < totalWords ->
  Num.integer_between 10 100
    (calculateDailyGoal Math_log10 totalWords dueWords averageStudyTime
       availableTime averageAccuracy).
Proof.
  intros Ht. unfold calculateDailyGoal.
  destruct (JS.strict_eq totalWords 0).
  { exists 20%Z. split; [reflexivity | lia]. }
  cbv zeta.
  rewrite div_finite.
  2:{ unfold Num.or_else.
      destruct (Qeq_bool averageStudyTime 0) eqn:E; [discriminate|].
      now apply Qeq_bool_neq. }
  destruct (Math_log10_finite (totalWords + 1)) as [y ->]; [lra|].
  cbn [Num.Math_floor Num.Math_round Num.rounding Num.Math_min
       Num.Math_max Num.add Num.mul].
  destruct (clamp_goal (JS.Math_round
    ((JS.Math_min dueWords 50 * 0.4
      + inject_Z (JS.Math_floor
          (availableTime * 60 / Num.or_else averageStudyTime 30)) * 0.3
      + JS.Math_min y 2 * 15)
     * (0.5 + averageAccuracy / 100 * 0.5)))) as (n & E & R).
  exists n. split; [now rewrite E | exact R].
Qed.

End DailyGoalRange.

(** C9. For totalWords, dueWords, averageStudyTime and availableTime that
    are not negative and averageAccuracy in [0,100], [calculateDailyGoal]
    returns a whole number between 10 and 100; for totalWords = 0 it is the
    default 20.  [Math.log10] may be any function that is finite on the
    positive numbers. *)
Theorem calculateDailyGoal_range
    (Math_log10 : Q -> number)
    totalWords dueWords averageStudyTime availableTime averageAccuracy :
  (forall x : Q, 0 < x -> Num.is_finite (Math_log10 x)) ->
  0 <= totalWords -> 0 <= dueWords -> 0 <= averageStudyTime ->
  0 <= availableTime -> 0 <= averageAccuracy <= 100 ->
  Num.integer_between 10 100
    (calculateDailyGoal Math_log10 totalWords dueWords averageStudyTime
       availableTime averageAccuracy)
  /\ (totalWords == 0 ->
      calculateDailyGoal Math_log10 totalWords dueWords averageStudyTime
        availableTime averageAccuracy = Finite 20).
Proof.
  intros Hlog Ht _ _ _ _. split.
  - apply calculateDailyGoal_clamped; [exact Hlog | lra].
  - intros E. unfold calculateDailyGoal.
    apply strict_eq_iff in E. now rewrite E.
Qed.

Lemma roughLog10_finite (x : Q) : 0 < x -> Num.is_finite (roughLog10 x).
Proof.
  intros H. unfold roughLog10. apply lt_iff in H. rewrite H.
  eexists. reflexivity.
Qed.

Lemma calculateDailyGoal_range_witness :
  Num.integer_between 10 100 (calculateDailyGoal roughLog10 500 30 12 20 80)
  /\ (500 == 0 -> calculateDailyGoal roughLog10 500 30 12 20 80 = Finite 20).
Proof.
  apply (calculateDailyGoal_range roughLog10 500 30 12 20 80).
  - exact roughLog10_finite.
  - vm_compute; discriminate.
  - vm_compute; discriminate.
  - vm_compute; discriminate.
  - vm_compute; discriminate.
  - split; vm_compute; discriminate.
Defined.

(** The goal at that input: 30 due words, 100 cards of time budget and 500
    words at 80% accuracy. *)
Example calculateDailyGoal_example :
  calculateDailyGoal roughLog10 500 30 12 20 80 = Finite 65.
Proof. vm_compute. reflexivity. Qed.

(** * Further properties *)

(** ** How one review moves the ease factor, the mastery and the interval *)

(** [toFixed2] moves a non-negative number by at most half a hundredth. *)
Lemma toFixed2_near (x : Q) :
  0 <= x -> x - (1 # 200) < JS.toFixed2 x <= x + (1 # 200).
Proof.
  intros Hx. unfold JS.toFixed2.
  js_case; [lra|].
  pose proof (Qfloor_le (x * 100 + (1 # 2))) as U.
  pose proof (Qlt_floor (x * 100 + (1 # 2))) as L.
  rewrite inject_Z_plus in L. change (inject_Z 1) with 1 in L.
  qdiv. split; lra.
Qed.

Lemma calculateEaseFactorChange_comp (x y : Q) :
  x == y -> calculateEaseFactorChange x = calculateEaseFactorChange y.
Proof.
  intros E. unfold calculateEaseFactorChange, JS.strict_eq.
  now rewrite !(Qeqb_comp x y E _ _ (Qeq_refl _)).
Qed.

Lemma rating_change (quality : Q) :
  (quality == 3 \/ quality == 4 \/ quality == 5 ->
   (1 # 20) <= calculateEaseFactorChange quality)
  /\ (quality == 0 \/ quality == 1 \/ quality == 2 ->
      calculateEaseFactorChange quality <= - (3 # 20)).
Proof.
  split; intros [E|[E|E]];
    rewrite (calculateEaseFactorChange_comp _ _ E); vm_compute;
    discriminate.
Qed.

(** X1. Direction of the ease factor: on a card whose ease factor and
    mastery are valid, a passing rating (3, 4, 5) never lowers the ease
    factor - it rises unless the result is the ceiling 2.5 - and a failing
    rating (0, 1, 2) never raises it - it falls unless the result is the
    floor 1.3. *)
Theorem ease_moves_with_the_rating env card quality :
  1.3 <= easeFactor card <= 2.5 -> 0 <= masteryScore card <= 100 ->
  (quality == 3 \/ quality == 4 \/ quality == 5 ->
   exists r,
     calculateNextReview env card quality = Ok r
     /\ easeFactor card <= s_easeFactor r
     /\ (s_easeFactor r == 2.5 \/ easeFactor card < s_easeFactor r))
  /\ (quality == 0 \/ quality == 1 \/ quality == 2 ->
      exists r,
        calculateNextReview env card quality = Ok r
        /\ s_easeFactor r <= easeFactor card
        /\ (s_easeFactor r == 1.3 \/ s_easeFactor r < easeFactor card)).
Proof.
  intros He Hm.
  pose proof (rating_change quality) as [Up Down].
  split; intros Hq.
  - specialize (Up Hq).
    exists (reviewed env card quality). split.
    { apply calculateNextReview_ok; [|exact Hm].
      destruct Hq as [E|[E|E]]; rewrite E; split; lra. }
    cbn [reviewed s_easeFactor]. unfold newEaseFactor.
    set (d := calculateEaseFactorChange quality) in *.
    unfold clampEaseFactor, JS.Math_max, JS.Math_min,
      MIN_EASE_FACTOR, MAX_EASE_FACTOR.
    destruct (Q.min_spec 2.5 (easeFactor card + d)) as [[A M]|[A M]].
    + assert (T : JS.toFixed2 (Qmax 1.3 (Qmin 2.5 (easeFactor card + d)))
                  = JS.toFixed2 2.5).
      { apply toFixed2_comp. rewrite M. apply Q.max_r. lra. }
      rewrite T. change (JS.toFixed2 2.5) with (250 # 100).
      split; [|left; reflexivity]. lra.
    + assert (T : JS.toFixed2 (Qmax 1.3 (Qmin 2.5 (easeFactor card + d)))
                  = JS.toFixed2 (easeFactor card + d)).
      { apply toFixed2_comp. rewrite M. apply Q.max_r. lra. }
      rewrite T.
      pose proof (toFixed2_near (easeFactor card + d)) as N.
      assert (P : 0 <= easeFactor card + d) by lra.
      specialize (N P). split; [|right]; lra.
  - specialize (Down Hq).
    exists (reviewed env card quality). split.
    { apply calculateNextReview_ok; [|exact Hm].
      destruct Hq as [E|[E|E]]; rewrite E; split; lra. }
    cbn [reviewed s_easeFactor]. unfold newEaseFactor.
    set (d := calculateEaseFactorChange quality) in *.
    unfold clampEaseFactor, JS.Math_max, JS.Math_min,
      MIN_EASE_FACTOR, MAX_EASE_FACTOR.
    assert (M : Qmin 2.5 (easeFactor card + d) == easeFactor card + d)
      by (apply Q.min_r; lra).
    destruct (Q.max_spec 1.3 (easeFactor card + d)) as [[A X]|[A X]].
    + assert (T : JS.toFixed2 (Qmax 1.3 (Qmin 2.5 (easeFactor card + d)))
                  = JS.toFixed2 (easeFactor card + d)).
      { apply toFixed2_comp. rewrite M. exact X. }
      rewrite T.
      pose proof (toFixed2_near (easeFactor card + d)) as N.
      assert (P : 0 <= easeFactor card + d) by lra.
      specialize (N P). split; [|right]; lra.
    + assert (T : JS.toFixed2 (Qmax 1.3 (Qmin 2.5 (easeFactor card + d)))
                  = JS.toFixed2 1.3).
      { apply toFixed2_comp. rewrite M. exact X. }
      rewrite T. change (JS.toFixed2 1.3) with (130 # 100).
      split; [|left; reflexivity]. lra.
Qed.

Lemma ease_moves_with_the_rating_witness :
  (4 == 3 \/ 4 == 4 \/ 4 == 5 ->
   exists r,
     calculateNextReview sampleEnv sampleCard 4 = Ok r
     /\ easeFactor sampleCard <= s_easeFactor r
     /\ (s_easeFactor r == 2.5 \/ easeFactor sampleCard < s_easeFactor r))
  /\ (4 == 0 \/ 4 == 1 \/ 4 == 2 ->
      exists r,
        calculateNextReview sampleEnv sampleCard 4 = Ok r
        /\ s_easeFactor r <= easeFactor sampleCard
        /\ (s_easeFactor r == 1.3 \/ s_easeFactor r < easeFactor sampleCard)).
Proof.
  apply (ease_moves_with_the_rating sampleEnv sampleCard 4).
  - split; vm_compute; discriminate.
  - split; vm_compute; discriminate.
Defined.

Lemma gain_bounds (quality m : Q) :
  3 <= quality <= 5 -> 0 <= m <= 100 ->
  (18 # 5) <= calculateMasteryIncrement quality m <= 20.
Proof.
  intros [Q3 Q5] [M0 M1]. unfold calculateMasteryIncrement, MASTERY_INCREMENT.
  js_case; [lra|]. cbv zeta. qdiv.
  set (a := quality * (1 # 5)). set (b := 1 - m * (1 # 100) * 0.7).
  assert (A : (3 # 5) <= a <= 1) by (unfold a; lra).
  assert (B : (3 # 10) <= b <= 1) by (unfold b; lra).
  split; nra.
Qed.

Lemma penalty_bounds (quality m : Q) :
  quality < 3 -> 0 <= m <= 100 ->
  - 20 <= calculateMasteryIncrement quality m <= - 6.
Proof.
  intros Q3 [M0 M1]. unfold calculateMasteryIncrement, MASTERY_INCREMENT,
    JS.Math_max.
  js_case; [|lra]. cbv zeta. qdiv. qminmax; lra.
Qed.

(** The clamp of the mastery to [0,100], by cases. *)
Lemma clamp_percent (x : Q) :
  (x <= 0 /\ Qmin 100 (Qmax 0 x) == 0)
  \/ (0 <= x <= 100 /\ Qmin 100 (Qmax 0 x) == x)
  \/ (100 <= x /\ Qmin 100 (Qmax 0 x) == 100).
Proof.
  destruct (Q.max_spec 0 x) as [[A M]|[A M]];
  destruct (Q.min_spec 100 (Qmax 0 x)) as [[B N]|[B N]];
  rewrite N; rewrite M in *.
  - right; right. split; [lra | reflexivity].
  - right; left. split; [lra | reflexivity].
  - lra.
  - left. split; [lra | reflexivity].
Qed.

(** X2. Mastery after a pass: on a card with a valid mastery, a quality
    from 3 to 5 never lowers the mastery score; the returned score is 100
    or more than 3 points above the old one. *)
Theorem pass_raises_mastery env card quality :
  3 <= quality <= 5 -> 0 <= masteryScore card <= 100 ->
  exists r,
    calculateNextReview env card quality = Ok r
    /\ masteryScore card <= s_masteryScore r
    /\ (s_masteryScore r = 100 \/ masteryScore card + 3 < s_masteryScore r).
Proof.
  intros Hq Hm. exists (reviewed env card quality). split.
  { apply calculateNextReview_ok; [lra | exact Hm]. }
  cbn [reviewed s_masteryScore].
  pose proof (gain_bounds quality (masteryScore card) Hq Hm) as [G0 G1].
  unfold newMasteryScore, JS.Math_min, JS.Math_max.
  set (x := masteryScore card
            + calculateMasteryIncrement quality (masteryScore card)) in *.
  assert (X0 : 0 < x) by (unfold x; lra).
  destruct (clamp_percent x) as [[A E]|[[A E]|[A E]]]; [lra| |].
  - pose proof (Math_round_nearest (Qmin 100 (Qmax 0 x))) as [L _].
    unfold x in *. split; [|right]; lra.
  - assert (R : JS.Math_round (Qmin 100 (Qmax 0 x)) = 100%Z).
    { unfold JS.Math_round. rewrite E. reflexivity. }
    rewrite R. split; [|left; reflexivity].
    change (inject_Z 100) with 100. lra.
Qed.

Lemma pass_raises_mastery_witness :
  exists r,
    calculateNextReview sampleEnv sampleCard 4 = Ok r
    /\ masteryScore sampleCard <= s_masteryScore r
    /\ (s_masteryScore r = 100
        \/ masteryScore sampleCard + 3 < s_masteryScore r).
Proof.
  apply (pass_raises_mastery sampleEnv sampleCard 4).
  - split; vm_compute; discriminate.
  - split; vm_compute; discriminate.
Defined.

(** X3. Mastery after a failure: on a card with a valid mastery, a quality
    below 3 never raises the mastery score and takes at most 20.5 points
    off it; the penalty is the same whichever failing quality was given. *)
Theorem failure_lowers_mastery env card quality :
  0 <= quality < 3 -> 0 <= masteryScore card <= 100 ->
  exists r,
    calculateNextReview env card quality = Ok r
    /\ s_masteryScore r <= masteryScore card
    /\ masteryScore card - (41 # 2) <= s_masteryScore r
    /\ 0 <= s_masteryScore r
    /\ forall quality', 0 <= quality' < 3 ->
         exists r',
           calculateNextReview env card quality' = Ok r'
           /\ s_masteryScore r' = s_masteryScore r.
Proof.
  intros [Q0 Q3] Hm. exists (reviewed env card quality). split.
  { apply calculateNextReview_ok; [lra | exact Hm]. }
  cbn [reviewed s_masteryScore].
  pose proof (penalty_bounds quality (masteryScore card) Q3 Hm) as [P0 P1].
  pose proof (rounded_mastery_range card quality) as [R0 _].
  rewrite Zle_Qle in R0. change (inject_Z 0) with 0 in R0.
  pose proof (Math_round_nearest (newMasteryScore card quality)) as [L U].
  assert (X : (masteryScore card
               + calculateMasteryIncrement quality (masteryScore card) <= 0
               /\ newMasteryScore card quality == 0)
              \/ newMasteryScore card quality
                 == masteryScore card
                    + calculateMasteryIncrement quality (masteryScore card)).
  { unfold newMasteryScore, JS.Math_min, JS.Math_max.
    set (x := masteryScore card
              + calculateMasteryIncrement quality (masteryScore card)) in *.
    destruct (clamp_percent x) as [[A E]|[[A E]|[A E]]];
      [left; exact (conj A E) | right; exact E | unfold x in A; lra]. }
  split; [|split; [|split; [exact R0|]]].
  - destruct X as [[_ X]|X].
    + assert (R : JS.Math_round (newMasteryScore card quality) = 0%Z).
      { unfold JS.Math_round. rewrite X. reflexivity. }
      rewrite R. change (inject_Z 0) with 0. lra.
    + lra.
  - destruct X as [[A X]|X]; lra.
  - intros q' [Q0' Q3']. exists (reviewed env card q'). split.
    { apply calculateNextReview_ok; [lra | exact Hm]. }
    cbn [reviewed s_masteryScore].
    unfold newMasteryScore, calculateMasteryIncrement.
    apply lt_iff in Q3, Q3'. rewrite Q3, Q3'. reflexivity.
Qed.

Lemma failure_lowers_mastery_witness :
  exists r,
    calculateNextReview sampleEnv sampleCard 1 = Ok r
    /\ s_masteryScore r <= masteryScore sampleCard
    /\ masteryScore sampleCard - (41 # 2) <= s_masteryScore r
    /\ 0 <= s_masteryScore r
    /\ forall quality', 0 <= quality' < 3 ->
         exists r',
           calculateNextReview sampleEnv sampleCard quality' = Ok r'
           /\ s_masteryScore r' = s_masteryScore r.
Proof.
  apply (failure_lowers_mastery sampleEnv sampleCard 1).
  - split; vm_compute; [discriminate | reflexivity].
  - split; vm_compute; discriminate.
Defined.

(** X4. Interval growth: on a card that has passed at least twice
    (reviewCount neither 0 nor 1), whose interval is a whole number of days
    and whose ease factor is at least 1, the interval that a passing review
    returns is a whole number of days and never shorter than the old one. *)
Theorem pass_never_shortens_interval env card quality (days : Z) r :
  3 <= quality <= 5 ->
  ~ reviewCount card == 0 -> ~ reviewCount card == 1 ->
  interval card == inject_Z days -> (1 <= days)%Z ->
  1 <= easeFactor card ->
  calculateNextReview env card quality = Ok r ->
  interval card <= s_interval r
  /\ exists next : Z, s_interval r = inject_Z next /\ (days <= next)%Z.
Proof.
  intros Hq R0 R1 Hi Hd He Calc.
  apply calculateNextReview_inv in Calc as (-> & _ & _).
  cbn [reviewed s_interval].
  unfold newInterval.
  assert (L : JS.lt quality 3 = false) by (apply lt_false_iff; lra).
  rewrite L, !strict_eq_false by assumption.
  assert (N : (days <= JS.Math_round (interval card * easeFactor card))%Z).
  { unfold JS.Math_round.
    apply Z.le_trans with (Qfloor (inject_Z days)).
    - rewrite Qfloor_Z. lia.
    - apply Qfloor_resp_le.
      rewrite Zle_Qle in Hd. change (inject_Z 1) with 1 in Hd. nra. }
  split.
  - apply Qle_trans with (inject_Z days); [lra|].
    rewrite <- Zle_Qle. exact N.
  - eexists. split; [reflexivity | exact N].
Qed.

Lemma pass_never_shortens_interval_witness :
  interval sampleCard <= s_interval (reviewed sampleEnv sampleCard 4)
  /\ exists next : Z,
       s_interval (reviewed sampleEnv sampleCard 4) = inject_Z next
       /\ (6 <= next)%Z.
Proof.
  apply (pass_never_shortens_interval sampleEnv sampleCard 4 6).
  - split; vm_compute; discriminate.
  - vm_compute; discriminate.
  - vm_compute; discriminate.
  - reflexivity.
  - lia.
  - vm_compute; discriminate.
  - reflexivity.
Defined.

(** ** The window of the next review date *)

(** X5. The next review date is never before tomorrow, the second clock
    reading moved to the next calendar day, whatever the zone and the random
    sample.  In a zone whose offset does not change it is at least 24 hours
    after the second reading, and within one day of [intervalDays] days
    after the first - provided the second reading comes no later than
    [intervalDays] days after the first. *)
Theorem next_review_date_window zone now0 rnd now1 intervalDays :
  (addDays zone now1 1
   <= calculateNextReviewDate zone now0 rnd now1 intervalDays)%Z
  /\ (offsetsWithin 0 zone ->
      (now1 + DAY <= calculateNextReviewDate zone now0 rnd now1 intervalDays)%Z
      /\ ((now1 <= now0 + intervalDays * DAY)%Z ->
          (now0 + (intervalDays - 1) * DAY
           <= calculateNextReviewDate zone now0 rnd now1 intervalDays
           <= now0 + (intervalDays + 1) * DAY)%Z)).
Proof.
  split; [apply calculateNextReviewDate_tomorrow|].
  intros Fixed.
  pose proof (finalVariation_cases intervalDays rnd) as J.
  unfold calculateNextReviewDate. cbv zeta.
  rewrite !(addDays_fixed zone) by exact Fixed.
  unfold DAY in *.
  match goal with
  | |- context [(?a <? ?b)%Z] => destruct (Z.ltb_spec a b)
  end; split; try intros H; lia.
Qed.

Lemma next_review_date_window_witness :
  (1000 + DAY
   <= calculateNextReviewDate (fixedZone 0) 1000 (99 # 100) 1000 15)%Z
  /\ (1000 + (15 - 1) * DAY
      <= calculateNextReviewDate (fixedZone 0) 1000 (99 # 100) 1000 15
      <= 1000 + (15 + 1) * DAY)%Z.
Proof.
  destruct (proj2 (next_review_date_window
                     (fixedZone 0) 1000 (99 # 100) 1000 15)
              (fixedZone_offsets 0)) as [A B].
  split; [exact A|]. apply B. vm_compute. discriminate.
Defined.

(** X6. Where the jitter starts: for a sample of [Math.random()] in [0,1)
    the jitter is 0 for every interval from 1 to 5 days, so that with one
    clock instant, in a zone whose offset does not change, such a card is
    scheduled exactly [intervalDays] days of 24 hours ahead; from 6 days on
    a jitter is possible (a sample of 0 moves a 6-day interval one day
    earlier). *)
Theorem jitter_starts_at_six_days zone now rnd intervalDays :
  0 <= rnd < 1 -> (1 <= intervalDays <= 5)%Z ->
  finalVariation intervalDays rnd = 0%Z
  /\ (offsetsWithin 0 zone ->
      calculateNextReviewDate zone now rnd now intervalDays
      = (now + intervalDays * DAY)%Z)
  /\ finalVariation 6 0 = (-1)%Z.
Proof.
  intros Hr [A B].
  assert (V : variationDays intervalDays rnd = 0%Z).
  { unfold variationDays.
    pose proof (randomVariation_range rnd Hr) as [L U].
    pose proof A as A'. pose proof B as B'.
    rewrite Zle_Qle in A', B'.
    change (inject_Z 1) with 1 in A'. change (inject_Z 5) with 5 in B'.
    assert (H : (0 <= JS.Math_round
                        (inject_Z intervalDays * randomVariation rnd)
                 <= 0)%Z).
    { unfold JS.Math_round.
      apply Qfloor_between; change (inject_Z 0) with 0; nra. }
    lia. }
  assert (F : finalVariation intervalDays rnd = 0%Z).
  { unfold finalVariation. rewrite V. reflexivity. }
  split; [exact F|]. split; [|reflexivity].
  intros Fixed.
  unfold calculateNextReviewDate. cbv zeta.
  rewrite F, !(addDays_fixed zone) by exact Fixed. unfold DAY.
  match goal with
  | |- context [(?a <? ?b)%Z] => destruct (Z.ltb_spec a b)
  end; lia.
Qed.

Lemma jitter_starts_at_six_days_witness :
  finalVariation 5 0 = 0%Z
  /\ calculateNextReviewDate (fixedZone 0) 1000 0 1000 5
     = (1000 + 5 * DAY)%Z.
Proof.
  destruct (jitter_starts_at_six_days (fixedZone 0) 1000 0 5)
    as (A & B & _).
  - split; vm_compute; [discriminate | reflexivity].
  - lia.
  - split; [exact A|]. apply B. apply fixedZone_offsets.
Defined.

(** ** Runs of reviews *)

Lemma review_step env card quality :
  0 <= quality <= 5 -> 0 <= masteryScore card <= 100 ->
  review env card quality = Ok (merge card (reviewed env card quality)).
Proof.
  intros Hq Hm. unfold review.
  now rewrite calculateNextReview_ok.
Qed.

Lemma review_keeps_valid env card quality :
  validCard card -> 0 <= quality <= 5 ->
  validCard (merge card (reviewed env card quality)).
Proof.
  intros (He & Hm & Hi) Hq. unfold validCard.
  cbn [merge spread reviewed interval easeFactor masteryScore
       s_interval s_easeFactor s_masteryScore].
  split; [|split].
  - apply toFixed2_range. apply clampEaseFactor_range.
  - pose proof (rounded_mastery_range card quality) as [L U].
    rewrite Zle_Qle in L, U. exact (conj L U).
  - change 1 with (inject_Z 1). rewrite <- Zle_Qle.
    apply newInterval_positive; lra.
Qed.

Lemma review_inv env card quality c :
  review env card quality = Ok c ->
  c = merge card (reviewed env card quality)
  /\ 0 <= quality <= 5 /\ 0 <= masteryScore card <= 100.
Proof.
  unfold review.
  destruct (calculateNextReview env card quality) as [u|e] eqn:E;
    [|discriminate].
  intros H. injection H as <-.
  apply calculateNextReview_inv in E as (-> & Hq & Hm). auto.
Qed.

(** A run of in-range ratings from a valid card passes every validation,
    and the first rating out of range stops it. *)
Lemma reviewRun_validated card answers :
  validCard card ->
  Forall (fun a : Env * Q => 0 <= snd a <= 5) answers ->
  (exists c,
     reviewRun card answers = Ok c
     /\ validCard c /\ wordData c = wordData card)
  /\ (forall env quality rest,
        ~ 0 <= quality <= 5 ->
        reviewRun card (answers ++ (env, quality) :: rest)
        = Throw QualityOutOfRange).
Proof.
  intros Hv Ha. revert card Hv.
  induction Ha as [|[env q] answers Hq _ IH]; intros card Hv.
  - split.
    + exists card. auto.
    + intros env q rest Hq. cbn [app reviewRun]. unfold review.
      rewrite calculateNextReview_eq.
      destruct (JS.lt q 0 || JS.gt q 5) eqn:E; [reflexivity|].
      apply quality_check in E. contradiction.
  - cbn [snd] in Hq. destruct Hv as (He & Hm & Hi).
    pose proof (review_keeps_valid env card q (conj He (conj Hm Hi)) Hq)
      as Hv'.
    destruct (IH _ Hv') as [(c & R & Vc & Dc) T].
    split.
    + exists c. cbn [reviewRun]. rewrite review_step by assumption.
      split; [exact R|]. split; [exact Vc|].
      rewrite Dc. unfold merge. apply wordData_spread.
    + intros env' q' rest Hq'. cbn [app reviewRun].
      rewrite review_step by assumption. now apply T.
Qed.

(** X7. The invariants hold along any run: starting from a card that
    satisfies the invariants, a run of reviews whose qualities all lie in
    [0,5] fails neither validation, and when it completes it ends in a card
    that satisfies the invariants and has the same non-scheduling fields; a
    run that goes on to a quality outside [0,5] does not complete, and it is
    not the mastery check that stops it. *)
Theorem review_run_keeps_invariants card answers :
  validCard card ->
  Forall (fun a : Env * Q => 0 <= snd a <= 5) answers ->
  (forall c,
     reviewRun card answers = Ok c ->
     validCard c /\ wordData c = wordData card)
  /\ reviewRun card answers <> Throw QualityOutOfRange
  /\ reviewRun card answers <> Throw MasteryOutOfRange
  /\ (forall env quality rest,
        ~ 0 <= quality <= 5 ->
        (forall c,
           reviewRun card (answers ++ (env, quality) :: rest) <> Ok c)
        /\ reviewRun card (answers ++ (env, quality) :: rest)
           <> Throw MasteryOutOfRange).
Proof.
  intros Hv Ha.
  destruct (reviewRun_validated card answers Hv Ha)
    as [(c & R & Vc & Dc) T].
  rewrite R. split; [|split; [|split]]; try discriminate.
  - intros c' E. injection E as <-. auto.
  - intros env quality rest Hq. rewrite (T env quality rest Hq).
    split; [intros c'|]; discriminate.
Qed.

Lemma review_run_keeps_invariants_witness :
  validCard (merge (merge sampleCard (reviewed sampleEnv sampleCard 4))
               (reviewed sampleEnv
                  (merge sampleCard (reviewed sampleEnv sampleCard 4)) 1)).
Proof.
  apply (review_run_keeps_invariants sampleCard
           [(sampleEnv, 4); (sampleEnv, 1)]).
  - unfold validCard. repeat split; vm_compute; discriminate.
  - repeat constructor; vm_compute; discriminate.
  - reflexivity.
Defined.

(** X8. Recovery after a failure: whatever the card's history, a failing
    review followed by two passing ones gives the intervals 1, 1 and 6 and
    the review counts 0, 1 and 2 - the card re-enters the short cycle. *)
Theorem failure_restarts_the_cycle env1 env2 env3 card failing pass1 pass2 :
  0 <= masteryScore card <= 100 ->
  0 <= failing < 3 -> 3 <= pass1 <= 5 -> 3 <= pass2 <= 5 ->
  exists c1 c2 c3,
    review env1 card failing = Ok c1
    /\ review env2 c1 pass1 = Ok c2
    /\ review env3 c2 pass2 = Ok c3
    /\ (interval c1 = 1 /\ interval c2 = 1 /\ interval c3 = 6)
    /\ (reviewCount c1 == 0 /\ reviewCount c2 == 1 /\ reviewCount c3 == 2).
Proof.
  intros Hm Hf Hp1 Hp2.
  assert (M : forall env c q,
            0 <= masteryScore (merge c (reviewed env c q)) <= 100).
  { intros env c q.
    cbn [merge spread reviewed masteryScore s_masteryScore].
    pose proof (rounded_mastery_range c q) as [L U].
    rewrite Zle_Qle in L, U. exact (conj L U). }
  assert (N : forall env c q, 3 <= q ->
            reviewCount (merge c (reviewed env c q)) == reviewCount c + 1).
  { intros env c q Hq.
    cbn [merge spread reviewed reviewCount s_reviewCount].
    unfold newReviewCount. apply lt_false_iff in Hq. rewrite Hq.
    reflexivity. }
  assert (I : forall env c q,
            interval (merge c (reviewed env c q))
            = inject_Z (newInterval c q)) by reflexivity.
  set (c1 := merge card (reviewed env1 card failing)).
  set (c2 := merge c1 (reviewed env2 c1 pass1)).
  set (c3 := merge c2 (reviewed env3 c2 pass2)).
  assert (F : JS.lt failing 3 = true) by (apply lt_iff; lra).
  assert (R1 : reviewCount c1 = 0).
  { unfold c1. cbn [merge spread reviewed reviewCount s_reviewCount].
    unfold newReviewCount. now rewrite F. }
  assert (R2 : reviewCount c2 == 1).
  { unfold c2. rewrite N by lra. rewrite R1. reflexivity. }
  assert (R3 : reviewCount c3 == 2).
  { unfold c3. rewrite N by lra. rewrite R2. reflexivity. }
  exists c1, c2, c3.
  split; [apply review_step; [lra | exact Hm]|].
  split; [apply review_step; [lra | apply M]|].
  split; [apply review_step; [lra | apply M]|].
  split; [|rewrite R1; repeat split; (reflexivity || assumption)].
  split; [|split].
  - unfold c1. rewrite I. unfold newInterval. now rewrite F.
  - unfold c2. rewrite I.
    rewrite newInterval_first; [reflexivity | lra | rewrite R1; reflexivity].
  - unfold c3. rewrite I.
    rewrite newInterval_second; [reflexivity | lra | exact R2].
Qed.

Lemma failure_restarts_the_cycle_witness :
  exists c1 c2 c3,
    review sampleEnv sampleCard 2 = Ok c1
    /\ review sampleEnv c1 3 = Ok c2
    /\ review sampleEnv c2 5 = Ok c3
    /\ (interval c1 = 1 /\ interval c2 = 1 /\ interval c3 = 6)
    /\ (reviewCount c1 == 0 /\ reviewCount c2 == 1 /\ reviewCount c3 == 2).
Proof.
  apply (failure_restarts_the_cycle sampleEnv sampleEnv sampleEnv
           sampleCard 2 3 5).
  - split; vm_compute; discriminate.
  - split; vm_compute; [discriminate | reflexivity].
  - split; vm_compute; discriminate.
  - split; vm_compute; discriminate.
Defined.

(** ** Reset *)

(** X9. Reset forgets the history: resetting a card after any run of
    reviews gives the same card as resetting it before the run, resetting
    twice is resetting once, and a reset card is what [initializeCard]
    makes of the card's non-scheduling fields. *)
Theorem reset_forgets_reviews now0 now1 card answers c :
  reviewRun card answers = Ok c ->
  resetCardProgress now0 now1 c = resetCardProgress now0 now1 card
  /\ (forall t0 t1,
        resetCardProgress now0 now1 (resetCardProgress t0 t1 card)
        = resetCardProgress now0 now1 card)
  /\ resetCardProgress now0 now1 c
     = initializeCard now0 now1 (wordData card).
Proof.
  intros H.
  assert (D : wordData c = wordData card).
  { revert card H. induction answers as [|[env q] rest IH]; intros card H.
    - cbn in H. now injection H as <-.
    - cbn [reviewRun] in H.
      destruct (review env card q) as [next|e] eqn:E; [|discriminate].
      apply review_inv in E as (-> & _ & _).
      rewrite (IH _ H). unfold merge. apply wordData_spread. }
  unfold resetCardProgress, initializeCard.
  rewrite D. split; [reflexivity|]. split; [|reflexivity].
  intros t0 t1. now rewrite wordData_spread.
Qed.

Lemma reset_forgets_reviews_witness :
  let c := merge sampleCard (reviewed sampleEnv sampleCard 4) in
  reviewRun sampleCard [(sampleEnv, 4)] = Ok c
  /\ resetCardProgress 5 6 c = resetCardProgress 5 6 sampleCard
  /\ (forall t0 t1,
        resetCardProgress 5 6 (resetCardProgress t0 t1 sampleCard)
        = resetCardProgress 5 6 sampleCard)
  /\ resetCardProgress 5 6 c = initializeCard 5 6 (wordData sampleCard).
Proof.
  intros c.
  assert (R : reviewRun sampleCard [(sampleEnv, 4)] = Ok c)
    by (vm_compute; reflexivity).
  split; [exact R|].
  exact (reset_forgets_reviews 5 6 sampleCard [(sampleEnv, 4)] c R).
Defined.

(** ** More on the time to mastery *)

(** The gain per review, the divisor of [estimateTimeToMastery]. *)
Lemma gain_positive (currentMastery averageAccuracy : Q) :
  0 <= currentMastery < 95 -> 0 < averageAccuracy <= 100 ->
  0 < averageAccuracy / 100 * 15 * (1 - currentMastery / 100 * 0.5) <= 15.
Proof.
  intros [L U] [A B]. qdiv.
  set (a := averageAccuracy * (1 # 100)).
  set (b := 1 - currentMastery * (1 # 100) * 0.5).
  assert (Ha : 0 < a <= 1) by (unfold a; lra).
  assert (Hb : (1 # 2) < b <= 1) by (unfold b; lra).
  split; nra.
Qed.

Lemma Qceiling_positive (x : Q) : 0 < x -> (1 <= Qceiling x)%Z.
Proof.
  intros H. pose proof (Qle_ceiling x) as C.
  assert (P : inject_Z 0 < inject_Z (Qceiling x))
    by (change (inject_Z 0) with 0; lra).
  rewrite <- Zlt_Qlt in P. lia.
Qed.

Lemma Qdiv_positive (a b : Q) : 0 < a -> 0 < b -> 0 < a / b.
Proof.
  intros Ha Hb. apply Qlt_shift_div_l; [exact Hb | lra].
Qed.

(** X10. Shape of a finite estimate: for a mastery below 95, an average
    accuracy in (0,100] and at least one review a day, the estimate is a
    pair of whole numbers with 1 <= days <= reviews. *)
Theorem estimate_days_at_most_reviews
    currentMastery averageAccuracy reviewsPerDay :
  0 <= currentMastery < 95 -> 0 < averageAccuracy <= 100 ->
  1 <= reviewsPerDay ->
  exists d r : Z,
    estimateTimeToMastery currentMastery averageAccuracy reviewsPerDay
    = {| days := Finite (inject_Z d); reviews := Finite (inject_Z r) |}
    /\ (1 <= d <= r)%Z.
Proof.
  intros Hm Ha Hr.
  pose proof (gain_positive currentMastery averageAccuracy Hm Ha) as [G _].
  rewrite (estimateTimeToMastery_finite _ _ _ Hm Ha Hr). cbv zeta.
  set (r := Qceiling ((100 - currentMastery)
                      / (averageAccuracy / 100 * 15
                         * (1 - currentMastery / 100 * 0.5)))).
  assert (R1 : (1 <= r)%Z).
  { apply Qceiling_positive. apply Qdiv_positive; lra. }
  exists (Qceiling (inject_Z r / reviewsPerDay)), r.
  split; [reflexivity|]. split.
  - apply Qceiling_positive. apply Qdiv_positive; [|lra].
    change 0 with (inject_Z 0). rewrite <- Zlt_Qlt. lia.
  - rewrite <- (Qceiling_Z r) at 2. apply Qceiling_resp_le.
    apply Qle_shift_div_r; [lra|].
    rewrite Zle_Qle in R1. change (inject_Z 1) with 1 in R1. nra.
Qed.

Lemma estimate_days_at_most_reviews_witness :
  exists d r : Z,
    estimateTimeToMastery 50 80 10
    = {| days := Finite (inject_Z d); reviews := Finite (inject_Z r) |}
    /\ (1 <= d <= r)%Z.
Proof.
  apply (estimate_days_at_most_reviews 50 80 10).
  - split; vm_compute; [discriminate | reflexivity].
  - split; vm_compute; [reflexivity | discriminate].
  - vm_compute; discriminate.
Defined.

(** X11. A better accuracy never lengthens the estimate: for the same
    mastery (below 95) and rate, raising the average accuracy within
    (0,100] gives no more reviews and no more days. *)
Theorem estimate_decreases_with_accuracy
    currentMastery lower higher reviewsPerDay :
  0 <= currentMastery < 95 -> 0 < lower -> lower <= higher ->
  higher <= 100 -> 1 <= reviewsPerDay ->
  exists d1 r1 d2 r2 : Z,
    estimateTimeToMastery currentMastery lower reviewsPerDay
    = {| days := Finite (inject_Z d1); reviews := Finite (inject_Z r1) |}
    /\ estimateTimeToMastery currentMastery higher reviewsPerDay
       = {| days := Finite (inject_Z d2); reviews := Finite (inject_Z r2) |}
    /\ (r2 <= r1)%Z /\ (d2 <= d1)%Z.
Proof.
  intros Hm L0 LH H1 Hr.
  assert (Hl : 0 < lower <= 100) by lra.
  assert (Hh : 0 < higher <= 100) by lra.
  pose proof (gain_positive currentMastery lower Hm Hl) as [G1 _].
  pose proof (gain_positive currentMastery higher Hm Hh) as [G2 _].
  rewrite (estimateTimeToMastery_finite _ _ _ Hm Hl Hr).
  rewrite (estimateTimeToMastery_finite _ _ _ Hm Hh Hr). cbv zeta.
  set (p := 100 - currentMastery) in *.
  set (g1 := lower / 100 * 15 * (1 - currentMastery / 100 * 0.5)) in *.
  set (g2 := higher / 100 * 15 * (1 - currentMastery / 100 * 0.5)) in *.
  assert (G : g1 <= g2).
  { unfold g1, g2. qdiv.
    assert (B : 0 < 1 - currentMastery * (1 # 100) * 0.5) by lra.
    nra. }
  assert (R : (Qceiling (p / g2) <= Qceiling (p / g1))%Z).
  { apply Qceiling_resp_le. apply Qle_shift_div_r; [exact G2|].
    assert (T : 0 < p / g1) by (apply Qdiv_positive; unfold p; lra).
    assert (E : g1 * (p / g1) == p) by (apply Qmult_div_r; lra).
    nra. }
  do 4 eexists. split; [reflexivity|]. split; [reflexivity|].
  split; [exact R|].
  apply Qceiling_resp_le.
  apply Qle_shift_div_r; [lra|].
  rewrite Zle_Qle in R.
  assert (T : 0 < inject_Z (Qceiling (p / g1)) / reviewsPerDay).
  { apply Qdiv_positive; [|lra].
    assert (P : (1 <= Qceiling (p / g1))%Z).
    { apply Qceiling_positive. apply Qdiv_positive; unfold p; lra. }
    rewrite Zle_Qle in P. change (inject_Z 1) with 1 in P. lra. }
  assert (E : reviewsPerDay
              * (inject_Z (Qceiling (p / g1)) / reviewsPerDay)
              == inject_Z (Qceiling (p / g1)))
    by (apply Qmult_div_r; lra).
  lra.
Qed.

Lemma estimate_decreases_with_accuracy_witness :
  exists d1 r1 d2 r2 : Z,
    estimateTimeToMastery 50 40 10
    = {| days := Finite (inject_Z d1); reviews := Finite (inject_Z r1) |}
    /\ estimateTimeToMastery 50 80 10
       = {| days := Finite (inject_Z d2); reviews := Finite (inject_Z r2) |}
    /\ (r2 <= r1)%Z /\ (d2 <= d1)%Z.
Proof.
  apply (estimate_decreases_with_accuracy 50 40 80 10).
  - split; vm_compute; [discriminate | reflexivity].
  - vm_compute; reflexivity.
  - vm_compute; discriminate.
  - vm_compute; discriminate.
  - vm_compute; discriminate.
Defined.

(** ** More on the daily goal *)

Lemma clamp_goal_Z (k : Z) :
  JS.Math_min (JS.Math_max 10 (inject_Z k)) 100
  = inject_Z (Z.min (Z.max 10 k) 100).
Proof.
  unfold JS.Math_min, JS.Math_max, Qmin, Qmax,
    GenericMinMax.gmin, GenericMinMax.gmax.
  destruct (10 ?= inject_Z k) eqn:A.
  - apply Qeq_alt in A. unfold Qeq in A. cbn in A.
    replace (Z.max 10 k) with 10%Z by lia. reflexivity.
  - apply Qlt_alt in A. change 10 with (inject_Z 10) in A.
    rewrite <- Zlt_Qlt in A.
    replace (Z.max 10 k) with k by lia.
    destruct (inject_Z k ?= 100) eqn:B.
    + apply Qeq_alt in B. unfold Qeq in B. cbn in B.
      replace (Z.min k 100) with k by lia. reflexivity.
    + apply Qlt_alt in B. change 100 with (inject_Z 100) in B.
      rewrite <- Zlt_Qlt in B.
      replace (Z.min k 100) with k by lia. reflexivity.
    + apply Qgt_alt in B. change 100 with (inject_Z 100) in B.
      rewrite <- Zlt_Qlt in B.
      replace (Z.min k 100) with 100%Z by lia. reflexivity.
  - apply Qgt_alt in A. change 10 with (inject_Z 10) in A.
    rewrite <- Zlt_Qlt in A.
    replace (Z.max 10 k) with 10%Z by lia. reflexivity.
Qed.

Lemma Qmin_cap_mono (a b cap : Q) : a <= b -> Qmin a cap <= Qmin b cap.
Proof.
  intros H.
  destruct (Q.min_spec a cap) as [[A M]|[A M]],
           (Q.min_spec b cap) as [[B N]|[B N]]; rewrite M, N; lra.
Qed.

Lemma Qmin_cap_reached (a b cap : Q) :
  cap <= a -> a <= b -> Qmin a cap <= Qmin b cap /\ Qmin b cap <= Qmin a cap.
Proof.
  intros H1 H2.
  destruct (Q.min_spec a cap) as [[A M]|[A M]],
           (Q.min_spec b cap) as [[B N]|[B N]]; rewrite M, N; split; lra.
Qed.

Section DailyGoalDueWords.

Variable Math_log10 : Q -> number.

Hypothesis Math_log10_finite :
  forall x : Q, 0 < x -> Num.is_finite (Math_log10 x).

(** The goal as a function of the number of due words. *)
Lemma calculateDailyGoal_shape
    totalWords dueWords averageStudyTime availableTime averageAccuracy :
  0 <= totalWords -> ~ totalWords == 0 ->
  exists y : Q,
    Math_log10 (totalWords + 1) = Finite y
    /\ calculateDailyGoal Math_log10 totalWords dueWords averageStudyTime
         availableTime averageAccuracy
       = Finite (inject_Z (Z.min (Z.max 10 (JS.Math_round
           ((JS.Math_min dueWords 50 * 0.4
             + inject_Z (JS.Math_floor
                 (availableTime * 60 / Num.or_else averageStudyTime 30))
               * 0.3
             + JS.Math_min y 2 * 15)
            * (0.5 + averageAccuracy / 100 * 0.5)))) 100)).
Proof.
  intros Ht Hz. unfold calculateDailyGoal.
  rewrite strict_eq_false by exact Hz.
  cbv zeta. rewrite div_finite.
  2:{ unfold Num.or_else.
      destruct (Qeq_bool averageStudyTime 0) eqn:E; [discriminate|].
      now apply Qeq_bool_neq. }
  destruct (Math_log10_finite (totalWords + 1)) as [y Ey]; [lra|].
  exists y. split; [exact Ey|]. rewrite Ey.
  cbn [Num.Math_floor Num.Math_round Num.rounding Num.Math_min
       Num.Math_max Num.add Num.mul].
  now rewrite clamp_goal_Z.
Qed.

End DailyGoalDueWords.

(** X12. Due words and the daily goal: with a vocabulary that is not
    empty, the recommended goal never falls when more words are due, and
    beyond 50 due words it does not change any more (the due count is
    capped at 50). *)
Theorem daily_goal_grows_with_due_words
    (Math_log10 : Q -> number)
    totalWords fewer more averageStudyTime availableTime averageAccuracy :
  (forall x : Q, 0 < x -> Num.is_finite (Math_log10 x)) ->
  0 < totalWords -> fewer <= more -> 0 <= averageAccuracy <= 100 ->
  exists n1 n2 : Z,
    calculateDailyGoal Math_log10 totalWords fewer averageStudyTime
      availableTime averageAccuracy = Finite (inject_Z n1)
    /\ calculateDailyGoal Math_log10 totalWords more averageStudyTime
         availableTime averageAccuracy = Finite (inject_Z n2)
    /\ (n1 <= n2)%Z
    /\ (50 <= fewer -> n1 = n2).
Proof.
  intros Hlog Ht Hd Ha.
  assert (Hz : ~ totalWords == 0) by (intros E; lra).
  assert (Ht0 : 0 <= totalWords) by lra.
  destruct (calculateDailyGoal_shape Math_log10 Hlog totalWords fewer
              averageStudyTime availableTime averageAccuracy Ht0 Hz)
    as (y & Ey & E1).
  destruct (calculateDailyGoal_shape Math_log10 Hlog totalWords more
              averageStudyTime availableTime averageAccuracy Ht0 Hz)
    as (y' & Ey' & E2).
  rewrite Ey in Ey'. injection Ey' as <-.
  do 2 eexists. split; [exact E1|]. split; [exact E2|].
  set (m := 0.5 + averageAccuracy / 100 * 0.5).
  assert (Hm : 0 < m) by (unfold m; qdiv; lra).
  assert (Mono : forall a b, a <= b ->
            (JS.Math_round ((a * 0.4 + inject_Z (JS.Math_floor
                (availableTime * 60 / Num.or_else averageStudyTime 30))
                * 0.3 + JS.Math_min y 2 * 15) * m)
             <= JS.Math_round ((b * 0.4 + inject_Z (JS.Math_floor
                (availableTime * 60 / Num.or_else averageStudyTime 30))
                * 0.3 + JS.Math_min y 2 * 15) * m))%Z).
  { intros a b Hab. unfold JS.Math_round. apply Qfloor_resp_le. nra. }
  split.
  - specialize (Mono _ _ (Qmin_cap_mono fewer more 50 Hd)).
    unfold JS.Math_min in *.
    apply Z.min_le_compat_r. apply Z.max_le_compat_l. exact Mono.
  - intros H50.
    destruct (Qmin_cap_reached fewer more 50 H50 Hd) as [H1 H2].
    pose proof (Mono _ _ H1) as M1. pose proof (Mono _ _ H2) as M2.
    unfold JS.Math_min in *.
    now rewrite (Z.le_antisymm _ _ M1 M2).
Qed.

Lemma daily_goal_grows_with_due_words_witness :
  exists n1 n2 : Z,
    calculateDailyGoal roughLog10 500 60 12 20 80 = Finite (inject_Z n1)
    /\ calculateDailyGoal roughLog10 500 75 12 20 80 = Finite (inject_Z n2)
    /\ (n1 <= n2)%Z
    /\ (50 <= 60 -> n1 = n2).
Proof.
  apply (daily_goal_grows_with_due_words roughLog10 500 60 75 12 20 80).
  - exact roughLog10_finite.
  - vm_compute; reflexivity.
  - vm_compute; discriminate.
  - split; vm_compute; discriminate.
Defined.

(** ** More on the review priority *)

Lemma daysOverdue_not_due now card t :
  nextReviewAt card = Some t -> (now <= t)%Z -> daysOverdue now card = 0%R.
Proof.
  intros H Ht. unfold daysOverdue. rewrite H.
  apply Rmax_left.
  assert (IZR (now - t) <= 0)%R by (apply IZR_le; lia).
  lra.
Qed.

(** X13. Priority and mastery: of two cards read at the same instant that
    agree in difficulty, reviewCount and due date, the one with the
    strictly lower mastery score has the strictly higher priority. *)
Theorem priority_decreases_with_mastery now c1 c2 :
  difficulty c1 = difficulty c2 ->
  reviewCount c1 == reviewCount c2 ->
  nextReviewAt c1 = nextReviewAt c2 ->
  masteryScore c1 < masteryScore c2 ->
  (getReviewPriority now c2 < getReviewPriority now c1)%R.
Proof.
  intros Hd Hr Hn Hm.
  rewrite !getReviewPriority_eq.
  pose proof (difficultyWeight_positive c1) as D.
  pose proof (recencyPenalty_positive c1) as P.
  assert (Eo : overdueWeight now c2 = overdueWeight now c1).
  { unfold overdueWeight, daysOverdue. now rewrite Hn. }
  assert (Ed : difficultyWeight c2 = difficultyWeight c1).
  { unfold difficultyWeight. now rewrite Hd. }
  rewrite Eo, Ed, (recencyPenalty_comp c2 c1) by (now symmetry).
  apply Rmult_lt_compat_r; [exact P|].
  apply Rmult_lt_compat_r; [exact D|].
  unfold masteryWeight. apply Qlt_Rlt in Hm. lra.
Qed.

Lemma priority_decreases_with_mastery_witness :
  (getReviewPriority 1000 sampleCard
   < getReviewPriority 1000 (merge sampleCard
       {| s_interval := 6; s_easeFactor := 2.5; s_reviewCount := 2;
          s_masteryScore := 10; s_nextReviewAt := Some 0%Z;
          s_lastReviewedAt := Some 0%Z |}))%R.
Proof.
  apply priority_decreases_with_mastery.
  - reflexivity.
  - reflexivity.
  - reflexivity.
  - vm_compute. reflexivity.
Defined.

(** X14. Cards that are not yet due: the due date does not enter the
    priority of a card whose review lies in the future, so two such cards
    that agree in mastery, difficulty and reviewCount have the same
    priority however far apart their due dates are; the score of any card
    with a mastery of at most 100 is at least 0.8. *)
Theorem priority_ignores_future_due_dates now c1 c2 t1 t2 :
  masteryScore c1 == masteryScore c2 ->
  difficulty c1 = difficulty c2 ->
  reviewCount c1 == reviewCount c2 ->
  nextReviewAt c1 = Some t1 -> nextReviewAt c2 = Some t2 ->
  (now <= t1)%Z -> (now <= t2)%Z ->
  getReviewPriority now c1 = getReviewPriority now c2
  /\ (forall c, masteryScore c <= 100 ->
        (0.8 <= getReviewPriority now c)%R).
Proof.
  intros Hm Hd Hr H1 H2 T1 T2. split.
  - rewrite !getReviewPriority_eq.
    unfold overdueWeight.
    rewrite (daysOverdue_not_due now c1 t1 H1 T1).
    rewrite (daysOverdue_not_due now c2 t2 H2 T2).
    unfold masteryWeight, difficultyWeight.
    now rewrite (Qeq_eqR _ _ Hm), Hd, (recencyPenalty_comp c1 c2 Hr).
  - intros c Hc. rewrite getReviewPriority_eq.
    assert (W : (1 <= overdueWeight now c)%R).
    { unfold overdueWeight.
      pose proof (daysOverdue_nonneg now c) as N.
      rewrite <- (Rpower_1 1) at 1 by lra.
      replace (Rpower 1 1) with (Rpower 1 1.5).
      - apply Rle_Rpower_l; lra.
      - unfold Rpower. rewrite ln_1, !Rmult_0_r. reflexivity. }
    assert (M : (0 <= masteryWeight c)%R).
    { unfold masteryWeight. apply Qle_Rle in Hc.
      replace (Q2R 100) with 100%R in Hc by (unfold Q2R; cbn; lra).
      lra. }
    assert (D : (0.8 <= difficultyWeight c)%R)
      by (unfold difficultyWeight; destruct (difficulty c); lra).
    assert (P : (0.5 <= recencyPenalty c)%R).
    { unfold recencyPenalty.
      destruct (JS.strict_eq (reviewCount c) 0); lra. }
    assert (S : (1.6 <= (overdueWeight now c * 2 + masteryWeight c * 3)
                        * difficultyWeight c)%R) by nra.
    nra.
Qed.

Lemma priority_ignores_future_due_dates_witness :
  getReviewPriority 1000 (cardDueAt 2000)
  = getReviewPriority 1000 (cardDueAt 900000)
  /\ (forall c, masteryScore c <= 100 ->
        (0.8 <= getReviewPriority 1000 c)%R).
Proof.
  apply (priority_ignores_future_due_dates 1000 (cardDueAt 2000)
           (cardDueAt 900000) 2000 900000); try reflexivity; lia.
Defined.

(** ** The summary of due cards *)

Section Sorting.

Context {A : Type}.
Variable compare : A -> A -> R.

Lemma insertSorted_perm x l : Permutation (insertSorted compare x l) (x :: l).
Proof.
  induction l as [|y l IH]; cbn [insertSorted]; [reflexivity|].
  destruct (Rlt_dec 0 (compare x y)); [|reflexivity].
  rewrite IH. apply perm_swap.
Qed.

Lemma Array_sort_perm l : Permutation (Array_sort compare l) l.
Proof.
  induction l as [|x l IH]; cbn; [constructor|].
  rewrite insertSorted_perm. now constructor.
Qed.

End Sorting.

(** Sorting by a key, highest first. *)
Section SortingByKey.

Context {A : Type}.
Variable key : A -> R.

Lemma insertSorted_HdRel x y l :
  descendingBy key y x -> HdRel (descendingBy key) y l ->
  HdRel (descendingBy key) y
    (insertSorted (fun a b => (key b - key a)%R) x l).
Proof.
  intros Hyx H. destruct l as [|z l]; cbn [insertSorted].
  - constructor. exact Hyx.
  - destruct (Rlt_dec 0 (key z - key x)%R); constructor.
    + now inversion H.
    + exact Hyx.
Qed.

Lemma insertSorted_sorted x l :
  Sorted (descendingBy key) l ->
  Sorted (descendingBy key)
    (insertSorted (fun a b => (key b - key a)%R) x l).
Proof.
  induction 1 as [|y l Hs IH Hd]; cbn [insertSorted].
  - repeat constructor.
  - destruct (Rlt_dec 0 (key y - key x)%R) as [Lt|Ge].
    + constructor; [exact IH|].
      apply insertSorted_HdRel; [|exact Hd].
      unfold descendingBy in *. lra.
    + constructor; [now constructor|].
      constructor. unfold descendingBy in *. lra.
Qed.

Lemma Array_sort_sorted l :
  StronglySorted (descendingBy key)
    (Array_sort (fun a b => (key b - key a)%R) l).
Proof.
  apply Sorted_StronglySorted.
  - intros a b c Hab Hbc. unfold descendingBy in *. lra.
  - induction l as [|x l IH]; cbn; [constructor|].
    now apply insertSorted_sorted.
Qed.

End SortingByKey.

Lemma filter_length_perm {A : Type} (f : A -> bool) (l l' : list A) :
  Permutation l l' ->
  List.length (filter f l) = List.length (filter f l').
Proof.
  induction 1 as [|x l l' _ IH|x y l|l l' l'' _ IH1 _ IH2]; cbn.
  - reflexivity.
  - destruct (f x); cbn; now rewrite IH.
  - destruct (f x), (f y); reflexivity.
  - now rewrite IH1.
Qed.

Lemma filter_length_bound {A : Type} (f : A -> bool) (l : list A) :
  (List.length (filter f l) <= List.length l)%nat.
Proof.
  induction l as [|x l IH]; cbn; [lia|].
  destruct (f x); cbn; lia.
Qed.

Lemma filter_length_le {A : Type} (f g : A -> bool) (l : list A) :
  (forall x, f x = true -> g x = true) ->
  (List.length (filter f l) <= List.length (filter g l))%nat.
Proof.
  intros H. induction l as [|x l IH]; cbn; [lia|].
  destruct (f x) eqn:F.
  - rewrite (H x F). cbn. lia.
  - destruct (g x); cbn; lia.
Qed.

Lemma countDue_fold now endOfDay endOfWeek entries (a b c : Z) :
  fold_left (countDue now endOfDay endOfWeek) entries (a, b, c)
  = ((a + dueBy now (map fst entries))%Z,
     (b + dueBy endOfDay (map fst entries))%Z,
     (c + dueBy endOfWeek (map fst entries))%Z).
Proof.
  revert a b c. unfold dueBy.
  induction entries as [|e entries IH]; intros a b c.
  - cbn. now rewrite !Z.add_0_r.
  - cbn [fold_left map filter countDue]. rewrite IH.
    destruct (dateLe (nextReviewAt (fst e)) now),
             (dateLe (nextReviewAt (fst e)) endOfDay),
             (dateLe (nextReviewAt (fst e)) endOfWeek);
      cbn [List.length]; rewrite ?Nat2Z.inj_succ;
      repeat (f_equal; try lia).
Qed.

Lemma withPriority_cards clock k cards :
  map fst (withPriority clock k cards) = cards.
Proof.
  revert k. induction cards as [|c cards IH]; intros k; cbn;
    [reflexivity | now rewrite IH].
Qed.

Lemma withPriority_instant t k cards :
  withPriority (fun _ => t) k cards
  = map (fun c => (c, getReviewPriority t c)) cards.
Proof.
  revert k. induction cards as [|c cards IH]; intros k; cbn;
    [reflexivity | now rewrite IH].
Qed.

Lemma endOfLocalDay_fixed zone now :
  offsetsWithin 0 zone ->
  (now <= endOfLocalDay zone now < now + DAY)%Z.
Proof.
  intros Fixed. unfold endOfLocalDay, UTC, LocalTime. cbv zeta.
  set (local := (now + offsetAtUTC zone now)%Z).
  specialize (Fixed now (local - local mod DAY + (DAY - 1))%Z).
  assert (H : (0 <= local mod DAY < DAY)%Z)
    by (apply Z.mod_pos_bound; reflexivity).
  subst local. lia.
Qed.

Lemma dateLe_mono s t t' : (t <= t')%Z -> dateLe s t = true -> dateLe s t' = true.
Proof.
  intros H. destruct s as [d|]; cbn; [|discriminate].
  rewrite !Z.leb_le. lia.
Qed.

Lemma dueBy_mono (t t' : Z) cards :
  (t <= t')%Z -> (dueBy t cards <= dueBy t' cards)%Z.
Proof.
  intros H. unfold dueBy. apply inj_le. apply filter_length_le.
  intros c. now apply dateLe_mono.
Qed.

Lemma dueBy_range (t : Z) cards :
  (0 <= dueBy t cards <= Z.of_nat (List.length cards))%Z.
Proof.
  unfold dueBy. split; [lia|]. apply inj_le. apply filter_length_bound.
Qed.

(** X15. The counts of the due summary: [dueNow], [dueToday] and
    [dueThisWeek] are the numbers of cards due by now, by the last
    millisecond of the local day and by the same local time seven calendar
    days on; a card without a review date is counted nowhere, and no count
    exceeds the number of cards, whatever the order and the clock readings
    of the priorities.  The counts are in ascending order as far as those
    three instants are, and they are in a zone whose offset does not change,
    where the week ends 7 days of 24 hours after now. *)
Theorem due_summary_counts zone now clock cards :
  let summary := getDueCardsSummary zone now clock cards in
  dueNow summary = dueBy now cards
  /\ dueToday summary = dueBy (endOfLocalDay zone now) cards
  /\ dueThisWeek summary = dueBy (addDays zone now 7) cards
  /\ (0 <= dueNow summary <= Z.of_nat (List.length cards))%Z
  /\ (0 <= dueToday summary <= Z.of_nat (List.length cards))%Z
  /\ (0 <= dueThisWeek summary <= Z.of_nat (List.length cards))%Z
  /\ ((now <= endOfLocalDay zone now)%Z ->
      (dueNow summary <= dueToday summary)%Z)
  /\ ((endOfLocalDay zone now <= addDays zone now 7)%Z ->
      (dueToday summary <= dueThisWeek summary)%Z)
  /\ (offsetsWithin 0 zone ->
      (dueNow summary <= dueToday summary <= dueThisWeek summary)%Z
      /\ dueThisWeek summary = dueBy (now + 7 * DAY) cards).
Proof.
  cbv zeta. unfold getDueCardsSummary. cbv zeta.
  rewrite countDue_fold. cbn [dueNow dueToday dueThisWeek].
  set (sorted := Array_sort _ (withPriority clock 0 cards)).
  assert (P : Permutation (map fst sorted) cards).
  { apply Permutation_trans with (map fst (withPriority clock 0 cards)).
    - apply Permutation_map. apply Array_sort_perm.
    - now rewrite withPriority_cards. }
  assert (E : forall t, dueBy t (map fst sorted) = dueBy t cards).
  { intros t. unfold dueBy. f_equal. now apply filter_length_perm. }
  rewrite !E, !Z.add_0_l.
  split; [reflexivity|]. split; [reflexivity|]. split; [reflexivity|].
  split; [apply dueBy_range|]. split; [apply dueBy_range|].
  split; [apply dueBy_range|].
  split; [apply dueBy_mono|]. split; [apply dueBy_mono|].
  intros Fixed.
  pose proof (endOfLocalDay_fixed zone now Fixed) as [B1 B2].
  rewrite (addDays_fixed zone now 7 Fixed).
  split; [|reflexivity].
  split; apply dueBy_mono; [exact B1 | unfold DAY in *; lia].
Qed.

Lemma due_summary_counts_witness :
  let summary :=
    getDueCardsSummary (fixedZone 0) (5 * DAY) (fun _ => (5 * DAY)%Z)
      [cardDueAt (4 * DAY); cardDueAt (6 * DAY); cardDueAt (20 * DAY)] in
  (dueNow summary <= dueToday summary <= dueThisWeek summary)%Z
  /\ dueThisWeek summary
     = dueBy (5 * DAY + 7 * DAY)
         [cardDueAt (4 * DAY); cardDueAt (6 * DAY); cardDueAt (20 * DAY)].
Proof.
  apply (due_summary_counts (fixedZone 0) (5 * DAY) (fun _ => (5 * DAY)%Z)
           [cardDueAt (4 * DAY); cardDueAt (6 * DAY); cardDueAt (20 * DAY)]).
  apply fixedZone_offsets.
Defined.

Lemma getDueCardsSummary_queue tz now clock cards :
  priorityQueue (getDueCardsSummary tz now clock cards)
  = map fst (Array_sort (fun a b => (snd b - snd a)%R)
               (withPriority clock 0 cards)).
Proof.
  unfold getDueCardsSummary. cbv zeta. rewrite countDue_fold. reflexivity.
Qed.

Lemma sorted_pairs_sorted_cards
    (priority : VocabularyWord -> R) (entries : list (VocabularyWord * R)) :
  StronglySorted (descendingBy snd) entries ->
  Forall (fun e => snd e = priority (fst e)) entries ->
  StronglySorted (descendingBy priority) (map fst entries).
Proof.
  induction 1 as [|e entries _ IH Hd]; intros F; cbn; constructor.
  - apply IH. now inversion F.
  - inversion F as [|? ? He Hes]; subst.
    rewrite Forall_map. rewrite Forall_forall in *.
    intros e' Hin. specialize (Hd e' Hin). specialize (Hes e' Hin).
    unfold descendingBy in *. now rewrite <- He, <- Hes.
Qed.

(** X16. The priority queue of the due summary holds exactly the cards it
    was given, each as often as it was given, and - when the priorities are
    all computed at one clock instant - in order of descending review
    priority. *)
Theorem due_summary_queue tz now clock cards :
  Permutation (priorityQueue (getDueCardsSummary tz now clock cards)) cards
  /\ (forall t, (forall k, clock k = t) ->
      StronglySorted (descendingBy (getReviewPriority t))
        (priorityQueue (getDueCardsSummary tz now clock cards))).
Proof.
  rewrite getDueCardsSummary_queue. split.
  - apply Permutation_trans with (map fst (withPriority clock 0 cards)).
    + apply Permutation_map. apply Array_sort_perm.
    + now rewrite withPriority_cards.
  - intros t Ht.
    apply sorted_pairs_sorted_cards.
    + apply (Array_sort_sorted snd).
    + assert (F : Forall (fun e => snd e = getReviewPriority t (fst e))
                    (withPriority clock 0 cards)).
      { generalize 0%nat.
        induction cards as [|c cards IH]; intros k; cbn; constructor.
        - cbn. now rewrite Ht.
        - apply IH. }
      eapply Permutation_Forall; [|exact F].
      apply Permutation_sym. apply Array_sort_perm.
Qed.

Lemma due_summary_queue_witness :
  Permutation
    (priorityQueue
       (getDueCardsSummary (fixedZone 0) (5 * DAY) (fun _ => (5 * DAY)%Z)
          [cardDueAt (4 * DAY); cardDueAt 0]))
    [cardDueAt (4 * DAY); cardDueAt 0]
  /\ StronglySorted (descendingBy (getReviewPriority (5 * DAY)))
       (priorityQueue
          (getDueCardsSummary (fixedZone 0) (5 * DAY)
             (fun _ => (5 * DAY)%Z)
             [cardDueAt (4 * DAY); cardDueAt 0])).
Proof.
  destruct (due_summary_queue (fixedZone 0) (5 * DAY)
              (fun _ => (5 * DAY)%Z)
              [cardDueAt (4 * DAY); cardDueAt 0]) as [P S].
  split; [exact P|]. apply S. reflexivity.
Defined.

(** ** The adaptive schedule *)

Lemma decayWeight_positive (n index : nat) : 0 < decayWeight n index.
Proof. unfold decayWeight. apply Qpower_0_lt. reflexivity. Qed.

(** The two sums of the weighted accuracy, run side by side: bounds on the
    accuracies carry over to the sums. *)
Lemma weighted_sums_ge (lo : Q) (n : nat) (history : list PerformanceEntry) :
  Forall (fun e => lo <= accuracy e) history ->
  forall (index : nat) (num den : Q),
    lo * den <= num ->
    lo * reduceFrom (fun sum _ i => sum + decayWeight n i) index history den
    <= reduceFrom (fun sum e i => sum + accuracy e * decayWeight n i)
         index history num.
Proof.
  induction 1 as [|e history He _ IH]; intros index num den H; cbn.
  - exact H.
  - apply IH. pose proof (decayWeight_positive n index). nra.
Qed.

Lemma weighted_sums_gt (lo : Q) (n : nat) (history : list PerformanceEntry) :
  Forall (fun e => lo <= accuracy e) history ->
  forall (index : nat) (num den : Q),
    lo * den < num ->
    lo * reduceFrom (fun sum _ i => sum + decayWeight n i) index history den
    < reduceFrom (fun sum e i => sum + accuracy e * decayWeight n i)
        index history num.
Proof.
  induction 1 as [|e history He _ IH]; intros index num den H; cbn.
  - exact H.
  - apply IH. pose proof (decayWeight_positive n index). nra.
Qed.

Lemma weighted_sums_le (hi : Q) (n : nat) (history : list PerformanceEntry) :
  Forall (fun e => accuracy e <= hi) history ->
  forall (index : nat) (num den : Q),
    num <= hi * den ->
    reduceFrom (fun sum e i => sum + accuracy e * decayWeight n i)
      index history num
    <= hi * reduceFrom (fun sum _ i => sum + decayWeight n i)
              index history den.
Proof.
  induction 1 as [|e history He _ IH]; intros index num den H; cbn.
  - exact H.
  - apply IH. pose proof (decayWeight_positive n index). nra.
Qed.

Lemma weights_grow (n : nat) (history : list PerformanceEntry) :
  forall (index : nat) (den : Q),
    den <= reduceFrom (fun sum _ i => sum + decayWeight n i)
             index history den.
Proof.
  induction history as [|e history IH]; intros index den; cbn.
  - lra.
  - specialize (IH (S index) (den + decayWeight n index)).
    pose proof (decayWeight_positive n index). lra.
Qed.

Lemma weights_positive (history : list PerformanceEntry) :
  history <> [] ->
  0 < Array_reduce
        (fun sum _ i => sum + decayWeight (List.length history) i)
        0 history.
Proof.
  destruct history as [|e history]; [contradiction|]. intros _.
  unfold Array_reduce. cbn [reduceFrom].
  pose proof (weights_grow (List.length (e :: history)) history 1
                (0 + decayWeight (List.length (e :: history)) 0)).
  pose proof (decayWeight_positive (List.length (e :: history)) 0).
  lra.
Qed.

(** The weighted accuracy is a mean: it lies between bounds that hold for
    every entry. *)
Lemma weightedAccuracy_bounds (lo hi : Q) (history : list PerformanceEntry) :
  history <> [] ->
  (Forall (fun e => lo <= accuracy e) history ->
   lo <= weightedAccuracy history)
  /\ (Forall (fun e => accuracy e <= hi) history ->
      weightedAccuracy history <= hi)
  /\ (Forall (fun e => lo < accuracy e) history ->
      lo < weightedAccuracy history).
Proof.
  intros Hne. pose proof (weights_positive history Hne) as D.
  unfold weightedAccuracy. cbv zeta. unfold Array_reduce in *.
  split; [|split]; intros F.
  - apply Qle_shift_div_l; [exact D|].
    apply weighted_sums_ge; [exact F | lra].
  - apply Qle_shift_div_r; [exact D|].
    apply weighted_sums_le; [exact F | lra].
  - apply Qlt_shift_div_l; [exact D|].
    destruct history as [|e history]; [contradiction|].
    inversion F as [|? ? He Hes]; subst. cbn [reduceFrom].
    apply weighted_sums_gt.
    + eapply Forall_impl; [|exact Hes]. intros a Ha. cbn in Ha. lra.
    + pose proof (decayWeight_positive (List.length (e :: history)) 0).
      nra.
Qed.

(** What [optimalInterval] is before the bounds are applied: one of the five
    growth factors, rounded. *)
Lemma schedule_shape (history : list PerformanceEntry) card :
  history <> [] ->
  exists factor : Q,
    (11 # 10) <= factor <= (5 # 2)
    /\ nextInterval (calculateOptimalReviewSchedule history card)
       = Z.max 1 (Z.min 365 (JS.Math_round (interval card * factor)))
    /\ (80 < weightedAccuracy history -> 2 <= factor)
    /\ (weightedAccuracy history <= 60 -> factor == 1.1).
Proof.
  intros Hne. unfold calculateOptimalReviewSchedule.
  destruct history as [|e history]; [contradiction|].
  cbn [List.length Nat.eqb]. cbv zeta. cbn [nextInterval].
  set (wa := weightedAccuracy (e :: history)).
  unfold JS.gt.
  destruct (JS.lt 90 wa && JS.lt (avgResponseTime (e :: history)) 2000)
    eqn:T1.
  { apply andb_true_iff in T1 as [T1 _]. apply lt_true in T1.
    exists 2.5. repeat split; try reflexivity; try lra. }
  destruct (JS.lt 80 wa) eqn:T2.
  { apply lt_true in T2.
    exists 2. repeat split; try reflexivity; try lra. }
  apply lt_false in T2.
  destruct (JS.lt 70 wa) eqn:T3.
  { apply lt_true in T3.
    exists 1.5. repeat split; try reflexivity; try lra. }
  destruct (JS.lt 60 wa) eqn:T4.
  { apply lt_true in T4.
    exists 1.2. repeat split; try reflexivity; try lra. }
  exists 1.1. repeat split; try reflexivity; try lra.
Qed.

Lemma sum_of_equal (x : R) (accuracies : list Q) :
  Forall (fun a => Q2R a = x) accuracies ->
  forall (index : nat) (acc : R),
    reduceFrom (fun a b _ => (a + Q2R b)%R) index accuracies acc
    = (acc + INR (List.length accuracies) * x)%R.
Proof.
  induction 1 as [|a accuracies Ha _ IH]; intros index acc.
  - cbn. lra.
  - cbn [reduceFrom]. rewrite IH, Ha.
    change (List.length (a :: accuracies)) with (S (List.length accuracies)).
    rewrite S_INR. lra.
Qed.

Lemma squares_of_equal (x mean : R) (accuracies : list Q) :
  Forall (fun a => Q2R a = x) accuracies ->
  forall (index : nat) (acc : R),
    reduceFrom (fun a b _ => (a + (Q2R b - mean) ^ 2)%R) index accuracies acc
    = (acc + INR (List.length accuracies) * (x - mean) ^ 2)%R.
Proof.
  induction 1 as [|a accuracies Ha _ IH]; intros index acc.
  - cbn. lra.
  - cbn [reduceFrom]. rewrite IH, Ha.
    change (List.length (a :: accuracies)) with (S (List.length accuracies)).
    rewrite S_INR. lra.
Qed.

Lemma calculateConsistency_unit (accuracies : list Q) :
  (0 <= calculateConsistency accuracies <= 1)%R.
Proof.
  unfold calculateConsistency.
  destruct (List.length accuracies <? 2)%nat; [lra|].
  cbv zeta.
  match goal with
  | |- (_ <= Rmax 0 (1 - sqrt ?v / 50) <= _)%R =>
      pose proof (sqrt_pos v) as S
  end.
  split; [apply Rmax_l | apply Rmax_lub; lra].
Qed.

(** X17. The consistency score lies between 0 and 1; it is 0.5 for fewer
    than two accuracies, and 1 for two or more accuracies that are all the
    same whole number of percent (what the store records: twenty times the
    rating). *)
Theorem consistency_range (accuracies : list Q) :
  (0 <= calculateConsistency accuracies <= 1)%R
  /\ ((List.length accuracies < 2)%nat ->
      calculateConsistency accuracies = 0.5%R)
  /\ (forall percent : Z,
        (0 <= percent <= 100)%Z ->
        (2 <= List.length accuracies)%nat ->
        Forall (fun a => a == inject_Z percent) accuracies ->
        calculateConsistency accuracies = 1%R).
Proof.
  split; [apply calculateConsistency_unit|].
  unfold calculateConsistency.
  destruct (Nat.ltb_spec (List.length accuracies) 2) as [Short|Long].
  - split; [reflexivity|]. intros percent _ H. lia.
  - cbv zeta. split; [intros H; lia|].
    + intros percent _ _ F.
      set (c := inject_Z percent) in *.
      assert (F' : Forall (fun a => Q2R a = Q2R c) accuracies).
      { eapply Forall_impl; [|exact F]. intros a. apply Qeq_eqR. }
      assert (N : (0 < INR (List.length accuracies))%R)
        by (apply lt_0_INR; lia).
      unfold Array_reduce.
      rewrite (sum_of_equal _ _ F').
      replace ((0 + INR (List.length accuracies) * Q2R c)
               / INR (List.length accuracies))%R with (Q2R c)
        by (field; lra).
      rewrite (squares_of_equal _ _ _ F').
      replace ((0 + INR (List.length accuracies) * (Q2R c - Q2R c) ^ 2)
               / INR (List.length accuracies))%R with 0%R
        by (field; lra).
      rewrite sqrt_0.
      replace (1 - 0 / 50)%R with 1%R by lra.
      apply Rmax_right. lra.
Qed.

Lemma consistency_range_witness :
  calculateConsistency [80; 80; 80] = 1%R.
Proof.
  apply (proj2 (proj2 (consistency_range [80; 80; 80])) 80%Z).
  - lia.
  - cbn. lia.
  - repeat constructor; reflexivity.
Defined.

Lemma R_toFixed2_unit (y : R) :
  (0 <= y <= 1)%R -> (0 <= R_toFixed2 y <= 1)%R.
Proof.
  intros [L U]. unfold R_toFixed2.
  destruct (Rlt_dec y 0) as [N|_]; [lra|].
  destruct (base_Int_part (y * 100 + / 2)) as [A B].
  set (z := Int_part (y * 100 + / 2)) in *.
  assert (Z0 : (0 <= z)%Z).
  { assert (H : (IZR (-1) < IZR z)%R) by (cbn; lra).
    apply lt_IZR in H. lia. }
  assert (Z1 : (z <= 100)%Z).
  { assert (H : (IZR z < IZR 101)%R) by lra.
    apply lt_IZR in H. lia. }
  apply IZR_le in Z0, Z1. lra.
Qed.

(** X18. The adaptive schedule stays in bounds: the interval it proposes is
    between 1 and 365 days; an empty history gives interval 1 and confidence
    0.5; and when no accuracy in the history is negative the confidence is
    between 0 and 1. *)
Theorem optimal_schedule_range (history : list PerformanceEntry) card :
  (1 <= nextInterval (calculateOptimalReviewSchedule history card) <= 365)%Z
  /\ (history = [] ->
      calculateOptimalReviewSchedule history card
      = {| nextInterval := 1; confidence := 0.5 |})
  /\ (Forall (fun e => 0 <= accuracy e) history ->
      (0 <= confidence (calculateOptimalReviewSchedule history card)
       <= 1)%R).
Proof.
  destruct history as [|e history].
  - cbn. split; [lia|]. split; [reflexivity|]. intros _. lra.
  - assert (Hne : e :: history <> []) by discriminate.
    split; [|split; [discriminate|]].
    + destruct (schedule_shape (e :: history) card Hne)
        as (factor & _ & E & _).
      rewrite E. lia.
    + intros F.
      unfold calculateOptimalReviewSchedule.
      cbn [List.length Nat.eqb]. cbv zeta. cbn [confidence].
      apply R_toFixed2_unit.
      pose proof (proj1 (weightedAccuracy_bounds 0 0 (e :: history) Hne) F)
        as W.
      apply Qle_Rle in W.
      replace (Q2R 0) with 0%R in W by (unfold Q2R; cbn; lra).
      pose proof (calculateConsistency_unit (map accuracy (e :: history)))
        as [C0 C1].
      split.
      * apply Rmin_glb; [lra|].
        destruct (JS.lt (avgResponseTime (e :: history)) 5000); lra.
      * apply Rmin_l.
Qed.

Lemma optimal_schedule_range_witness :
  (1 <= nextInterval (calculateOptimalReviewSchedule sampleHistory sampleCard)
   <= 365)%Z
  /\ (0 <= confidence (calculateOptimalReviewSchedule sampleHistory sampleCard)
      <= 1)%R.
Proof.
  destruct (optimal_schedule_range sampleHistory sampleCard) as (B & _ & C).
  split; [exact B|].
  apply C. repeat constructor; cbn; lra.
Defined.

Lemma Math_round_ge (z : Z) (x : Q) :
  inject_Z z <= x -> (z <= JS.Math_round x)%Z.
Proof.
  intros H. unfold JS.Math_round.
  apply Z.le_trans with (Qfloor (inject_Z z)).
  - rewrite Qfloor_Z. lia.
  - apply Qfloor_resp_le. lra.
Qed.

Lemma Math_round_comp (x y : Q) : x == y -> JS.Math_round x = JS.Math_round y.
Proof.
  intros E. unfold JS.Math_round. apply Qfloor_comp. rewrite E. reflexivity.
Qed.

(** X19. For a card whose interval is a whole number of days (at least one)
    and a history that is not empty, the adaptive schedule never proposes
    less than the current interval, capped at 365 days; when every recorded
    accuracy is 81 or more it proposes at least twice the interval (capped),
    and when every accuracy is 59 or less it proposes the interval times
    1.1, rounded and bounded.  (The thresholds of the source are 80 and 60;
    the point in between keeps the weighted average on its side of them.) *)
Theorem adaptive_interval_tiers
    (history : list PerformanceEntry) card (days : Z) :
  history <> [] -> interval card == inject_Z days -> (1 <= days)%Z ->
  (Z.min 365 days
   <= nextInterval (calculateOptimalReviewSchedule history card))%Z
  /\ (Forall (fun e => 81 <= accuracy e) history ->
      (Z.min 365 (2 * days)
       <= nextInterval (calculateOptimalReviewSchedule history card))%Z)
  /\ (Forall (fun e => accuracy e <= 59) history ->
      nextInterval (calculateOptimalReviewSchedule history card)
      = Z.max 1 (Z.min 365 (JS.Math_round (interval card * 1.1)))).
Proof.
  intros Hne Hi Hd.
  destruct (schedule_shape history card Hne)
    as (factor & [F0 F1] & E & Hi80 & Lo60).
  rewrite E.
  assert (Hd' : 1 <= inject_Z days).
  { change 1 with (inject_Z 1). rewrite <- Zle_Qle. exact Hd. }
  split; [|split].
  - assert (R : (days <= JS.Math_round (interval card * factor))%Z).
    { apply Math_round_ge. nra. }
    lia.
  - intros F.
    pose proof (proj1 (weightedAccuracy_bounds 81 81 history Hne) F) as W.
    assert (W' : 80 < weightedAccuracy history) by lra.
    specialize (Hi80 W').
    assert (R : (2 * days <= JS.Math_round (interval card * factor))%Z).
    { apply Math_round_ge. rewrite inject_Z_mult.
      change (inject_Z 2) with 2. nra. }
    lia.
  - intros F.
    pose proof (proj1 (proj2 (weightedAccuracy_bounds 59 59 history Hne)) F)
      as W.
    assert (W' : weightedAccuracy history <= 60) by lra.
    specialize (Lo60 W').
    rewrite (Math_round_comp (interval card * factor) (interval card * 1.1))
      by (rewrite Lo60; reflexivity).
    reflexivity.
Qed.

Lemma adaptive_interval_tiers_witness :
  (Z.min 365 6
   <= nextInterval (calculateOptimalReviewSchedule sampleHistory sampleCard))%Z
  /\ (Z.min 365 (2 * 6)
      <= nextInterval
           (calculateOptimalReviewSchedule sampleHistory sampleCard))%Z.
Proof.
  destruct (adaptive_interval_tiers sampleHistory sampleCard 6)
    as (A & B & _).
  - discriminate.
  - reflexivity.
  - lia.
  - split; [exact A|]. apply B. repeat constructor; cbn; lra.
Defined.

(** ** The store *)

Lemma percentage_range (part whole : Z) :
  (0 <= part <= whole)%Z -> (0 < whole)%Z ->
  (0 <= JS.Math_round (inject_Z part / inject_Z whole * 100) <= 100)%Z.
Proof.
  intros [P0 P1] W.
  rewrite Zle_Qle in P0, P1. rewrite Zlt_Qlt in W.
  change (inject_Z 0) with 0 in *.
  set (p := inject_Z part) in *. set (w := inject_Z whole) in *.
  assert (Q0 : 0 <= p / w) by (apply Qle_shift_div_l; lra).
  assert (Q1 : p / w <= 1) by (apply Qle_shift_div_r; lra).
  apply Math_round_between.
  - change (inject_Z 0) with 0. nra.
  - change (inject_Z 100) with 100. nra.
Qed.

Lemma findIndexFrom_cases {A : Type} (p : A -> bool) (items : list A) :
  forall index : Z,
    (0 <= index)%Z ->
    (findIndexFrom p index items = (-1)%Z
     /\ Forall (fun y => p y = false) items)
    \/ exists pre x post,
         items = pre ++ x :: post
         /\ Forall (fun y => p y = false) pre
         /\ p x = true
         /\ findIndexFrom p index items
            = (index + Z.of_nat (List.length pre))%Z.
Proof.
  induction items as [|y items IH]; intros index Hi; cbn [findIndexFrom].
  - left. split; [reflexivity | constructor].
  - destruct (p y) eqn:Py.
    + right. exists [], y, items. cbn.
      repeat split; [constructor | exact Py | lia].
    + destruct (IH (index + 1)%Z ltac:(lia))
        as [[E F]|(pre & x & post & -> & F & Px & E)].
      * left. split; [exact E | constructor; assumption].
      * right. exists (y :: pre), x, post.
        repeat split; [constructor; assumption | exact Px |].
        rewrite E. cbn [List.length]. lia.
Qed.

Lemma splice1_at {A : Type} (pre post : list A) (x y : A) :
  splice1 (pre ++ x :: post) (Z.of_nat (List.length pre)) y
  = pre ++ y :: post.
Proof.
  unfold splice1. rewrite Nat2Z.id.
  induction pre as [|z pre IH]; cbn [List.length firstn skipn app].
  - reflexivity.
  - f_equal. exact IH.
Qed.

(** What [UPDATE_WORD] does to the list: nothing when no word has the id,
    otherwise the first word with the id gives way to the update. *)
Lemma UPDATE_WORD_cases (state : RootState) (updated : VocabularyWord) :
  (Forall (fun w => id w <> id updated) (words state)
   /\ UPDATE_WORD state updated = state)
  \/ exists pre old post,
       words state = pre ++ old :: post
       /\ Forall (fun w => id w <> id updated) pre
       /\ id old = id updated
       /\ UPDATE_WORD state updated
          = SET_WORDS state (pre ++ updated :: post).
Proof.
  unfold UPDATE_WORD, findIndex. cbv zeta.
  destruct (findIndexFrom_cases
              (fun w => String.eqb (id w) (id updated)) (words state) 0%Z)
    as [[E F]|(pre & old & post & W & F & P & E)]; [lia| |].
  - left. rewrite E. cbn. split; [|reflexivity].
    eapply Forall_impl; [|exact F].
    intros w H. cbv beta in H. apply String.eqb_neq in H. exact H.
  - right. exists pre, old, post. rewrite E.
    assert (N : (0 + Z.of_nat (List.length pre) =? -1)%Z = false)
      by (apply Z.eqb_neq; lia).
    rewrite N. cbn [negb].
    repeat split.
    + exact W.
    + eapply Forall_impl; [|exact F].
      intros w H. cbv beta in H. apply String.eqb_neq in H. exact H.
    + apply String.eqb_eq in P. exact P.
    + rewrite W. cbn [Z.add]. rewrite splice1_at. reflexivity.
Qed.

Lemma UPDATE_WORD_fields (state : RootState) (updated : VocabularyWord) :
  currentCard (UPDATE_WORD state updated) = currentCard state
  /\ error (UPDATE_WORD state updated) = error state
  /\ sessionStats (UPDATE_WORD state updated) = sessionStats state.
Proof.
  unfold UPDATE_WORD. cbv zeta.
  match goal with |- context [negb ?b] => destruct (negb b) end;
    repeat split; reflexivity.
Qed.

Lemma UPDATE_WORD_ids (state : RootState) (updated : VocabularyWord) :
  map id (words (UPDATE_WORD state updated)) = map id (words state).
Proof.
  destruct (UPDATE_WORD_cases state updated)
    as [[_ ->]|(pre & old & post & W & _ & I & ->)]; [reflexivity|].
  cbn [SET_WORDS words]. rewrite W, !map_app. cbn [map]. now rewrite I.
Qed.

Lemma map_unmatched (name : string) (updated : VocabularyWord)
    (items : list VocabularyWord) :
  Forall (fun w => id w <> name) items ->
  map (fun w => if String.eqb (id w) name then updated else w) items = items.
Proof.
  induction 1 as [|w items Hw _ IH]; cbn [map]; [reflexivity|].
  apply String.eqb_neq in Hw. rewrite Hw, IH. reflexivity.
Qed.

Lemma unique_ids_split (pre post : list VocabularyWord) old :
  NoDup (map id (pre ++ old :: post)) ->
  Forall (fun w => id w <> id old) post.
Proof.
  rewrite map_app. cbn [map]. intros N.
  apply NoDup_remove_2 in N.
  apply Forall_forall. intros w Hw E. apply N.
  apply in_or_app. right. rewrite <- E. now apply in_map.
Qed.

Lemma UPDATE_WORD_unique (state : RootState) (updated : VocabularyWord) :
  NoDup (map id (words state)) ->
  words (UPDATE_WORD state updated)
  = map (fun w => if String.eqb (id w) (id updated) then updated else w)
      (words state).
Proof.
  intros N.
  destruct (UPDATE_WORD_cases state updated)
    as [[F ->]|(pre & old & post & W & F & I & ->)].
  - symmetry. now apply map_unmatched.
  - cbn [SET_WORDS words]. rewrite W in *.
    pose proof (unique_ids_split pre post old N) as P. rewrite I in P.
    rewrite map_app. cbn [map].
    rewrite (map_unmatched _ _ pre F), (map_unmatched _ _ post P).
    apply String.eqb_eq in I. rewrite I. reflexivity.
Qed.

(** X20. [UPDATE_WORD] exchanges a word for its update and does nothing
    else: the ids of the list, in their order, stay as they are, and so do
    the other parts of the state; when no word has the id of the update the
    state is unchanged (the update is not added); and when the ids are
    unique the new list is the old one with the word of that id replaced. *)
Theorem update_word_replaces_by_id
    (state : RootState) (updated : VocabularyWord) :
  map id (words (UPDATE_WORD state updated)) = map id (words state)
  /\ currentCard (UPDATE_WORD state updated) = currentCard state
  /\ sessionStats (UPDATE_WORD state updated) = sessionStats state
  /\ (~ In (id updated) (map id (words state)) ->
      UPDATE_WORD state updated = state)
  /\ (NoDup (map id (words state)) ->
      words (UPDATE_WORD state updated)
      = map (fun w => if String.eqb (id w) (id updated) then updated else w)
          (words state)).
Proof.
  split; [apply UPDATE_WORD_ids|].
  split; [apply UPDATE_WORD_fields|].
  split; [apply UPDATE_WORD_fields|].
  split; [|apply UPDATE_WORD_unique].
  intros Absent.
  destruct (UPDATE_WORD_cases state updated)
    as [[_ E]|(pre & old & post & W & _ & I & _)]; [exact E|].
  exfalso. apply Absent. rewrite W, map_app, <- I. cbn [map].
  apply in_or_app. right. now left.
Qed.

Lemma update_word_replaces_by_id_witness :
  UPDATE_WORD sampleState (cardWithId "z" 0) = sampleState
  /\ words (UPDATE_WORD sampleState (cardWithId "c" 9000))
     = [cardWithId "a" 500; cardWithId "b" 2000; cardWithId "c" 9000].
Proof.
  split.
  - apply (update_word_replaces_by_id sampleState (cardWithId "z" 0)).
    cbn. intros [H|[H|[H|[]]]]; discriminate.
  - rewrite (proj2 (proj2 (proj2 (proj2
      (update_word_replaces_by_id sampleState (cardWithId "c" 9000)))))).
    + reflexivity.
    + cbn. repeat constructor; cbn; intros H;
        repeat (destruct H as [H|H]; [discriminate|]); exact H.
Defined.

Ltac submit_cases env state quality :=
  unfold submitAnswer;
  let card := fresh "card" in
  let Card := fresh "Card" in
  let Calc := fresh "Calc" in
  let Storage := fresh "Storage" in
  destruct (currentCard state) as [card|] eqn:Card;
  [ destruct (calculateNextReview (review_env env) card quality)
      as [?stats|?e] eqn:Calc;
    [ cbv zeta; destruct (storage_ok env) eqn:Storage | ]
  | ].

Lemma sample_ids_unique : NoDup (map id (words sampleState)).
Proof.
  cbn. repeat constructor; cbn; intros H;
    repeat (destruct H as [H|H]; [discriminate|]); exact H.
Qed.

(** X21. [submitAnswer] returns only when there is a current card, the
    rating is between 0 and 5, the mastery score of the card is between 0
    and 100, and the words could be saved.  Without a current card it throws
    'No current card'; with one, a rating outside [0,5] makes it throw the
    quality error, and otherwise a mastery score outside [0,100] the mastery
    error.  What it returns is the card with the new scheduling merged in
    and a performance entry of accuracy [quality * 20] with the response
    time it was given. *)
Theorem submit_answer_returns_only_if
    (env : AnswerEnv) (state : RootState) (quality time : Q) :
  ((exists a, fst (submitAnswer env state quality time) = Returned a) ->
   (exists card,
      currentCard state = Some card
      /\ 0 <= quality <= 5
      /\ 0 <= masteryScore card <= 100)
   /\ storage_ok env = true)
  /\ (currentCard state = None <->
      fst (submitAnswer env state quality time) = Thrown NoCurrentCard)
  /\ (forall card,
        currentCard state = Some card ->
        (quality < 0 \/ 5 < quality <->
         fst (submitAnswer env state quality time)
         = Thrown (ServiceError QualityOutOfRange))
        /\ (0 <= quality <= 5
            /\ (masteryScore card < 0 \/ 100 < masteryScore card) <->
            fst (submitAnswer env state quality time)
            = Thrown (ServiceError MasteryOutOfRange)))
  /\ (forall a card,
        fst (submitAnswer env state quality time) = Returned a ->
        currentCard state = Some card ->
        updatedWord a = merge card (reviewed (review_env env) card quality)
        /\ accuracy (performanceEntry a) = quality * 20
        /\ responseTime (performanceEntry a) = time
        /\ date (performanceEntry a) = now_entry env).
Proof.
  split; [|split; [|split]].
  - intros [a H]. revert H. submit_cases env state quality;
      cbn [fst]; try discriminate.
    intros _. split; [|reflexivity].
    apply calculateNextReview_inv in Calc as (_ & Hq & Hm).
    exists card. auto.
  - submit_cases env state quality; cbn [fst];
      split; intros H; try discriminate H; reflexivity.
  - intros card' Card'. unfold submitAnswer. rewrite Card'.
    rewrite calculateNextReview_eq.
    destruct (JS.lt quality 0 || JS.gt quality 5) eqn:Hq.
    { cbn [fst].
      assert (Q' : ~ 0 <= quality <= 5).
      { intros Q'. apply quality_check in Q'. congruence. }
      split; split; intros H; try discriminate H; try reflexivity; lra. }
    apply quality_check in Hq.
    destruct (JS.lt (masteryScore card') 0 || JS.gt (masteryScore card') 100)
      eqn:Hm.
    { cbn [fst].
      assert (M' : ~ 0 <= masteryScore card' <= 100).
      { intros M'. apply mastery_check in M'. congruence. }
      split; split; intros H; try discriminate H; try reflexivity; lra. }
    apply mastery_check in Hm. cbv zeta.
    destruct (storage_ok env); cbn [fst];
      split; split; intros H; try discriminate H; lra.
  - intros a card'. submit_cases env state quality;
      cbn [fst]; try discriminate.
    intros H E. injection H as <-. injection E as <-.
    apply calculateNextReview_inv in Calc as (-> & _).
    cbn. auto.
Qed.

Lemma submit_answer_returns_only_if_witness :
  (exists card,
     currentCard sampleState = Some card
     /\ 0 <= 4 <= 5
     /\ 0 <= masteryScore card <= 100)
  /\ storage_ok sampleAnswerEnv = true.
Proof.
  apply (submit_answer_returns_only_if sampleAnswerEnv sampleState 4 1500).
  eexists. reflexivity.
Defined.

(** X22. What a call of [submitAnswer] that throws leaves behind.  The
    current card stays on display.  Without a current card the state is
    unchanged; in every other case the message of the error is recorded.
    When the rating or the card was rejected, the words and the counters of
    the session are untouched - but when saving failed, the answer has
    already been counted. *)
Theorem failed_answer_effects
    (env : AnswerEnv) (state : RootState) (quality time : Q) (e : StoreError) :
  fst (submitAnswer env state quality time) = Thrown e ->
  let final := snd (submitAnswer env state quality time) in
  currentCard final = currentCard state
  /\ (e = NoCurrentCard <-> currentCard state = None)
  /\ (e = NoCurrentCard -> final = state)
  /\ (e <> NoCurrentCard -> error final = Some (message e))
  /\ (e <> SaveFailed ->
      words final = words state /\ sessionStats final = sessionStats state)
  /\ (e = SaveFailed ->
      cardsReviewed (sessionStats final)
      = (cardsReviewed (sessionStats state) + 1)%Z).
Proof.
  submit_cases env state quality; cbn [fst snd]; try discriminate;
    intros H; injection H as <-; cbv zeta.
  - cbn [SET_ERROR currentCard error words sessionStats].
    match goal with
    | |- context [UPDATE_WORD ?s ?w] =>
        destruct (UPDATE_WORD_fields s w) as (C & _ & S)
    end.
    rewrite C, S. cbn.
    repeat split; try discriminate; try reflexivity; try congruence.
  - cbn. repeat split; try discriminate; try reflexivity; try congruence.
  - repeat split; try discriminate; try reflexivity; try congruence.
Qed.

Lemma failed_answer_effects_witness :
  words (snd (submitAnswer sampleAnswerEnv sampleState 7 1500))
  = words sampleState
  /\ sessionStats (snd (submitAnswer sampleAnswerEnv sampleState 7 1500))
     = sessionStats sampleState.
Proof.
  apply (failed_answer_effects sampleAnswerEnv sampleState 7 1500
           (ServiceError QualityOutOfRange)).
  - reflexivity.
  - discriminate.
Defined.

Lemma consistentStats_accuracy (stats : SessionStats) :
  consistentStats stats -> (0 <= sessionAccuracy stats <= 100)%Z.
Proof.
  intros (A & B & _). unfold sessionAccuracy.
  destruct (Z.ltb_spec 0 (cardsReviewed stats)) as [P|_]; [|lia].
  apply percentage_range; lia.
Qed.

(** One call of [submitAnswer], whatever its outcome, on the counters. *)
Lemma submitAnswer_counters
    (env : AnswerEnv) (state : RootState) (quality time : Q) :
  consistentStats (sessionStats state) ->
  let final := snd (submitAnswer env state quality time) in
  consistentStats (sessionStats final)
  /\ (cardsReviewed (sessionStats state)
      <= cardsReviewed (sessionStats final)
      <= cardsReviewed (sessionStats state) + 1)%Z
  /\ (longestStreak (sessionStats state)
      <= longestStreak (sessionStats final))%Z.
Proof.
  intros (A & B & C). unfold consistentStats.
  submit_cases env state quality; cbn [fst snd]; cbv zeta.
  1, 2:
    cbn [SET_ERROR SET_CURRENT_CARD sessionStats];
    match goal with
    | |- context [UPDATE_WORD ?s ?w] =>
        destruct (UPDATE_WORD_fields s w) as (_ & _ & S)
    end;
    rewrite S; cbn; destruct (JS.ge quality 3); lia.
  all: cbn; lia.
Qed.

Lemma answerRun_counters (answers : list (AnswerEnv * Q * Q)) :
  forall state : RootState,
    consistentStats (sessionStats state) ->
    consistentStats (sessionStats (answerRun state answers))
    /\ (cardsReviewed (sessionStats state)
        <= cardsReviewed (sessionStats (answerRun state answers))
        <= cardsReviewed (sessionStats state)
           + Z.of_nat (List.length answers))%Z
    /\ (longestStreak (sessionStats state)
        <= longestStreak (sessionStats (answerRun state answers)))%Z.
Proof.
  induction answers as [|[[env quality] time] answers IH]; intros state H.
  - cbn. repeat split; try apply H; lia.
  - cbn [answerRun].
    destruct (submitAnswer_counters env state quality time H)
      as (H' & R & L).
    destruct (IH _ H') as (H'' & R' & L').
    split; [exact H''|].
    change (List.length ((env, quality, time) :: answers))
      with (S (List.length answers)).
    rewrite Nat2Z.inj_succ. lia.
Qed.

(** X23. The counters of a session stay consistent.  After
    [RESET_SESSION_STATS] (the longest streak so far not being negative) and
    any number of calls of [submitAnswer], returning or throwing: the
    current streak is at most the number of correct answers, which is at
    most the number of cards reviewed, which is at most the number of calls;
    the current streak is at most the longest streak, which has not gone
    down; and the accuracy the store reports is between 0 and 100. *)
Theorem session_counters_stay_consistent
    (now : Z) (state : RootState) (answers : list (AnswerEnv * Q * Q)) :
  (0 <= longestStreak (sessionStats state))%Z ->
  let stats :=
    sessionStats (answerRun (RESET_SESSION_STATS now state) answers) in
  (0 <= currentStreak stats <= correctAnswers stats)%Z
  /\ (correctAnswers stats <= cardsReviewed stats
      <= Z.of_nat (List.length answers))%Z
  /\ (currentStreak stats <= longestStreak stats)%Z
  /\ (longestStreak (sessionStats state) <= longestStreak stats)%Z
  /\ (0 <= sessionAccuracy stats <= 100)%Z.
Proof.
  intros L. cbv zeta.
  assert (H : consistentStats
                (sessionStats (RESET_SESSION_STATS now state))).
  { unfold consistentStats. cbn. lia. }
  destruct (answerRun_counters answers _ H) as (I & R & M).
  pose proof (consistentStats_accuracy _ I) as Acc.
  destruct I as (A & B & C). cbn in R, M.
  repeat split; try lia.
Qed.

Lemma session_counters_stay_consistent_witness :
  let stats :=
    sessionStats
      (answerRun (RESET_SESSION_STATS 900 sampleState)
         [(sampleAnswerEnv, 4, 1500); (sampleAnswerEnv, 9, 1500);
          (sampleAnswerEnv, 2, 1500)]) in
  (0 <= currentStreak stats <= correctAnswers stats)%Z
  /\ (correctAnswers stats <= cardsReviewed stats <= 3)%Z
  /\ (currentStreak stats <= longestStreak stats)%Z
  /\ (longestStreak (sessionStats sampleState) <= longestStreak stats)%Z
  /\ (0 <= sessionAccuracy stats <= 100)%Z.
Proof.
  apply (session_counters_stay_consistent 900 sampleState
           [(sampleAnswerEnv, 4, 1500); (sampleAnswerEnv, 9, 1500);
            (sampleAnswerEnv, 2, 1500)]).
  cbn. lia.
Defined.

Lemma findIndex_none {A : Type} (p : A -> bool) (items : list A) :
  Forall (fun y => p y = false) items -> findIndex p items = (-1)%Z.
Proof.
  unfold findIndex. intros F. generalize 0%Z.
  induction F as [|y items Hy _ IH]; intros index; cbn [findIndexFrom].
  - reflexivity.
  - rewrite Hy. apply IH.
Qed.

Lemma Forall_filter {A : Type} (P : A -> Prop) (f : A -> bool)
    (items : list A) :
  Forall P items -> Forall P (filter f items).
Proof.
  induction 1 as [|x items Hx _ IH]; cbn [filter]; [constructor|].
  destruct (f x); [constructor|]; assumption.
Qed.

(** A word that is replaced by an update that is not due is gone from the
    list of due cards, when ids are unique. *)
Lemma updated_word_not_due
    (state : RootState) (updated : VocabularyWord) (now : Z) :
  NoDup (map id (words state)) ->
  dateLe (nextReviewAt updated) now = false ->
  Forall (fun w => id w <> id updated)
    (dueCards now (UPDATE_WORD state updated)).
Proof.
  intros N D. unfold dueCards.
  destruct (UPDATE_WORD_cases state updated)
    as [[F ->]|(pre & old & post & W & F & I & ->)].
  - now apply Forall_filter.
  - cbn [SET_WORDS words]. rewrite W in N.
    pose proof (unique_ids_split pre post old N) as P. rewrite I in P.
    rewrite filter_app. cbn [filter]. rewrite D.
    apply Forall_app. split; now apply Forall_filter.
Qed.

(** X24. Which card comes next.  When the ids of the words are unique and
    the list of due cards is read before the tomorrow of the scheduler - one
    calendar day after it read the clock for it - a call of [submitAnswer]
    that returns puts the first due word of the updated list on display -
    never the card just answered, and no due card is skipped;
    [hasMoreCards] tells whether there is such a word. *)
Theorem next_card_is_first_due
    (env : AnswerEnv) (state : RootState) (quality time : Q)
    (card : VocabularyWord) (a : Answer) :
  NoDup (map id (words state)) ->
  (now_due env
   < addDays (time_zone (review_env env)) (now_tomorrow (review_env env)) 1)%Z ->
  currentCard state = Some card ->
  fst (submitAnswer env state quality time) = Returned a ->
  let final := snd (submitAnswer env state quality time) in
  currentCard final = hd_error (dueCards (now_due env) final)
  /\ Forall (fun w => id w <> id card) (dueCards (now_due env) final)
  /\ (hasMoreCards a = true <-> dueCards (now_due env) final <> []).
Proof.
  intros N Soon Card. unfold submitAnswer. rewrite Card.
  destruct (calculateNextReview (review_env env) card quality)
    as [stats|e] eqn:Calc; [|discriminate].
  cbv zeta. destruct (storage_ok env); [|discriminate].
  cbn [fst snd]. intros H. injection H as <-.
  apply calculateNextReview_inv in Calc as (-> & _).
  match goal with
  | |- context [UPDATE_WORD ?s ?w] =>
      set (counted := s); set (updated := w)
  end.
  assert (D : dateLe (nextReviewAt updated) (now_due env) = false).
  { cbn. apply Z.leb_gt.
    pose proof (calculateNextReviewDate_tomorrow
                  (time_zone (review_env env))
                  (now_base (review_env env)) (random (review_env env))
                  (now_tomorrow (review_env env))
                  (newInterval card quality)).
    lia. }
  pose proof (updated_word_not_due counted updated (now_due env) N D) as F.
  change (id updated) with (id card) in F.
  assert (I : findIndex (fun c => String.eqb (id c) (id card))
                (dueCards (now_due env) (UPDATE_WORD counted updated))
              = (-1)%Z).
  { apply findIndex_none. eapply Forall_impl; [|exact F].
    intros w Hw. now apply String.eqb_neq. }
  rewrite I.
  change (dueCards (now_due env)
            (SET_CURRENT_CARD (UPDATE_WORD counted updated)
               (itemAt (dueCards (now_due env) (UPDATE_WORD counted updated))
                  (-1 + 1)%Z)))
    with (dueCards (now_due env) (UPDATE_WORD counted updated)).
  cbn [SET_CURRENT_CARD currentCard hasMoreCards].
  destruct (dueCards (now_due env) (UPDATE_WORD counted updated))
    as [|next rest]; cbn.
  - repeat split; [constructor | discriminate | intros H; now elim H].
  - repeat split; [exact F | discriminate].
Qed.

Lemma next_card_is_first_due_witness :
  exists a,
    fst (submitAnswer sampleAnswerEnv sampleState 4 1500) = Returned a
    /\ currentCard (snd (submitAnswer sampleAnswerEnv sampleState 4 1500))
       = hd_error
           (dueCards 1000
              (snd (submitAnswer sampleAnswerEnv sampleState 4 1500)))
    /\ hasMoreCards a = true.
Proof.
  eexists. split; [reflexivity|].
  destruct (next_card_is_first_due sampleAnswerEnv sampleState 4 1500
              (cardWithId "a" 500) _
              sample_ids_unique eq_refl eq_refl eq_refl)
    as (A & _ & B).
  split; [exact A|]. apply B. vm_compute. discriminate.
Defined.

(** X25. A call of [submitAnswer] never adds, removes or reorders words:
    the ids of the list stay as they are, whatever the outcome.  When the
    ids are unique and the call returns, exactly the words with the id of
    the answered card are exchanged for the returned word, which keeps the
    id and every field that is not scheduling state; and the recorded error
    is left as it was. *)
Theorem answer_rewrites_one_word
    (env : AnswerEnv) (state : RootState) (quality time : Q) :
  let final := snd (submitAnswer env state quality time) in
  map id (words final) = map id (words state)
  /\ (forall card a,
        NoDup (map id (words state)) ->
        currentCard state = Some card ->
        fst (submitAnswer env state quality time) = Returned a ->
        words final
        = map (fun w => if String.eqb (id w) (id card) then updatedWord a
                        else w)
            (words state)
        /\ wordData (updatedWord a) = wordData card
        /\ error final = error state).
Proof.
  cbv zeta. split.
  - submit_cases env state quality; cbn [fst snd];
      cbn [SET_ERROR SET_CURRENT_CARD words]; try reflexivity;
      rewrite UPDATE_WORD_ids; reflexivity.
  - intros card a N Card. unfold submitAnswer. rewrite Card.
    destruct (calculateNextReview (review_env env) card quality)
      as [stats|e] eqn:Calc; [|discriminate].
    cbv zeta. destruct (storage_ok env); [|discriminate].
    cbn [fst snd]. intros H. injection H as <-.
    cbn [SET_CURRENT_CARD words error updatedWord].
    match goal with
    | |- context [UPDATE_WORD ?s ?w] =>
        destruct (UPDATE_WORD_fields s w) as (_ & E & _);
        rewrite E, (UPDATE_WORD_unique s w N)
    end.
    split; [reflexivity|]. split; [apply wordData_spread | reflexivity].
Qed.

Lemma answer_rewrites_one_word_witness :
  exists a,
    fst (submitAnswer sampleAnswerEnv sampleState 4 1500) = Returned a
    /\ words (snd (submitAnswer sampleAnswerEnv sampleState 4 1500))
       = [updatedWord a; cardWithId "b" 2000; cardWithId "c" 700].
Proof.
  eexists. split; [reflexivity|].
  rewrite (proj1 (proj2 (answer_rewrites_one_word
                           sampleAnswerEnv sampleState 4 1500)
                   (cardWithId "a" 500) _
                   sample_ids_unique eq_refl eq_refl)).
  reflexivity.
Defined.

Lemma filter_all {A : Type} (f : A -> bool) (items : list A) :
  Forall (fun x => f x = true) items -> filter f items = items.
Proof.
  induction 1 as [|x items Hx _ IH]; cbn [filter]; [reflexivity|].
  rewrite Hx, IH. reflexivity.
Qed.

Lemma filter_none {A : Type} (f : A -> bool) (items : list A) :
  Forall (fun x => f x = false) items -> filter f items = [].
Proof.
  induction 1 as [|x items Hx _ IH]; cbn [filter]; [reflexivity|].
  rewrite Hx. exact IH.
Qed.

(** X26. The mastery percentage of [overallStats] is a whole number between
    0 and 100, whatever the words; it is 0 for an empty list and when no
    word has a mastery score of 90 or more, and 100 when every word of a
    list that is not empty has one. *)
Theorem mastery_percentage_range (state : RootState) :
  (0 <= masteryPercentage state <= 100)%Z
  /\ (0 <= masteredCards state <= Z.of_nat (List.length (words state)))%Z
  /\ (Forall (fun w => masteryScore w < 90) (words state) ->
      masteryPercentage state = 0%Z)
  /\ (words state <> [] ->
      Forall (fun w => 90 <= masteryScore w) (words state) ->
      masteryPercentage state = 100%Z).
Proof.
  assert (M : (0 <= masteredCards state
               <= Z.of_nat (List.length (words state)))%Z).
  { unfold masteredCards. split; [lia|].
    apply Nat2Z.inj_le. apply filter_length_bound. }
  split; [|split; [exact M|split]].
  - unfold masteryPercentage. cbv zeta.
    destruct (Z.ltb_spec 0 (Z.of_nat (List.length (words state))))
      as [P|_]; [|lia].
    apply percentage_range; [exact M | exact P].
  - intros F. unfold masteryPercentage, masteredCards. cbv zeta.
    rewrite filter_none.
    + destruct (0 <? Z.of_nat (List.length (words state)))%Z;
        [|reflexivity].
      rewrite (Math_round_comp _ 0); [reflexivity|].
      cbn [List.length Z.of_nat]. change (inject_Z 0) with 0.
      unfold Qdiv. rewrite !Qmult_0_l. reflexivity.
    + eapply Forall_impl; [|exact F].
      intros w H. cbv beta in H. unfold JS.ge.
      apply lt_iff in H. unfold JS.lt in H.
      now apply negb_true_iff in H.
  - intros Hne F. unfold masteryPercentage, masteredCards. cbv zeta.
    rewrite filter_all.
    + destruct (words state) as [|w rest]; [contradiction|].
      set (n := Z.of_nat (List.length (w :: rest))).
      assert (P : (0 < n)%Z) by (subst n; cbn [List.length]; lia).
      apply Z.ltb_lt in P as P'. rewrite P'.
      rewrite Zlt_Qlt in P. change (inject_Z 0) with 0 in P.
      assert (E : inject_Z n / inject_Z n * 100 == 100).
      { field. lra. }
      rewrite (Math_round_comp _ _ E). reflexivity.
    + eapply Forall_impl; [|exact F].
      intros w H. cbv beta in H. now apply ge_iff.
Qed.

Lemma mastery_percentage_range_witness :
  masteryPercentage sampleState = 0%Z.
Proof.
  apply (mastery_percentage_range sampleState).
  repeat constructor.
Defined.
